(** * SpectreWeave OpenCLIP service: embedding cache, similarity and
      consistency scoring

    Shallow embedding of [src/services/openclip/production_server.py] and
    [src/services/openclip/clip_server.py].

    - Python floats and numpy [float64]/[float32] scalars are IEEE 754
      binary values, modelled by [spec_float] with the operations of
      [SpecFloat] at precision 53/1024 and 24/128.
    - Exceptions are values of [exn]; code that can raise returns a
      [result]; [try ... except Exception] is [try_except].
    - The service object, the Redis client, the clock and the metric
      counters form the [World] threaded by the monad [M].
    - Redis, the CLIP model with [hashlib.md5], and [time.time()] are
      collaborators, taken as arbitrary behaviours through the classes
      [DurableStore], [EmbeddingOracle] and [Clock]. *)

From Stdlib Require Import ZArith List Bool String QArith Lia.
From Stdlib Require Import Sorting.Sorted Sorting.Permutation.
From Stdlib Require Import Floats.SpecFloat.
From stdpp Require Import gmap strings list pretty.

Open Scope string_scope.
Open Scope list_scope.
Open Scope Z_scope.

(** ** Python exceptions and results *)

Module Py.

(** The exception classes the service meets, all subclasses of
    [Exception].  [ExternalError] stands for whatever a collaborator
    raises (redis, torch, PIL).  Messages built with [str(e)] and
    f-strings are kept symbolic in [pystr]. *)
Inductive exn : Type :=
| ValueError (msg : string)
| IndexError (msg : string)
| ExternalError (origin msg : string)
| RequestValidationError (field : string)
| HTTPException (status_code : Z) (detail : pystr)
with pystr : Type :=
| Lit (s : string)
| Str (e : exn)
| Fmt (prefix : string) (e : exn).

Inductive result (A : Type) : Type :=
| OK (a : A)
| Raise (e : exn).
Arguments OK {A} a.
Arguments Raise {A} e.

Definition rbind {A B} (r : result A) (k : A -> result B) : result B :=
  match r with
  | OK a => k a
  | Raise e => Raise e
  end.

(** [try: body  except Exception as e: handler e] *)
Definition rtry {A} (body : result A) (handler : exn -> result A) : result A :=
  match body with
  | OK a => OK a
  | Raise e => handler e
  end.

(** The status a raised exception has for the HTTP caller: the status of
    an [HTTPException], 422 for a rejected request body, 500 for anything
    else that escapes a handler. *)
Definition http_status (e : exn) : Z :=
  match e with
  | HTTPException s _ => s
  | RequestValidationError _ => 422
  | _ => 500
  end.

Definition is_client_error (e : exn) : bool :=
  (400 <=? http_status e) && (http_status e <? 500).

(** [l[:k]] *)
Definition slice_to {A} (l : list A) (k : Z) : list A :=
  if 0 <=? k then firstn (Z.to_nat k) l
  else firstn (length l - Z.to_nat (- k)) l.

(** [enumerate(l)] *)
Definition enumerate {A} (l : list A) : list (nat * A) :=
  combine (seq 0 (length l)) l.

End Py.
Export Py.

Declare Scope result_scope.
Delimit Scope result_scope with result.
Notation "x <- c1 ;; c2" := (rbind c1 (fun x => c2))
  (at level 100, c1 at next level, right associativity) : result_scope.

(** ** IEEE 754 binary arithmetic *)

Module Float.

Record format : Type := { prec : Z; emax : Z }.

Definition binary64 : format := {| prec := 53; emax := 1024 |}.
Definition binary32 : format := {| prec := 24; emax := 128 |}.

Definition float : Type := spec_float.

Section Ops.
Variable f : format.

Definition add (x y : float) : float := SFadd (prec f) (emax f) x y.
Definition mul (x y : float) : float := SFmul (prec f) (emax f) x y.
Definition div (x y : float) : float := SFdiv (prec f) (emax f) x y.
Definition sqrt (x : float) : float := SFsqrt (prec f) (emax f) x.
Definition of_Z (z : Z) : float := binary_normalize (prec f) (emax f) z 0 false.
Definition valid (x : float) : bool := valid_binary (prec f) (emax f) x.

(** Conversion of a value of another format to [f], rounding to nearest
    even ([float(x)] of a numpy [float32] is [convert binary64 x]). *)
Definition convert (x : float) : float :=
  match x with
  | S754_finite s m e => binary_round (prec f) (emax f) s m e
  | _ => x
  end.
End Ops.

Definition pzero : float := S754_zero false.
Definition nan : float := S754_nan.

Definition ltb (x y : float) : bool := SFltb x y.
Definition leb (x y : float) : bool := SFleb x y.
Definition eqb (x y : float) : bool := SFeqb x y.
(** [x >= y] *)
Definition geb (x y : float) : bool := SFleb y x.

Definition is_nan (x : float) : bool :=
  match x with S754_nan => true | _ => false end.
Definition is_inf (x : float) : bool :=
  match x with S754_infinity _ => true | _ => false end.
Definition is_zero (x : float) : bool :=
  match x with S754_zero _ => true | _ => false end.

Definition nan_or_inf (x : float) : bool := is_nan x || is_inf x.

(** The literals [0.7] and [0.3]: the doubles nearest to 7/10 and 3/10. *)
Definition lit_0_7 : float := Eval vm_compute in div binary64 (of_Z binary64 7) (of_Z binary64 10).
Definition lit_0_3 : float := Eval vm_compute in div binary64 (of_Z binary64 3) (of_Z binary64 10).

End Float.

(** ** numpy *)

Module Np.
Import Float.

(** A one-dimensional array: its components in order.  The dtype is
    carried by the functions that use it. *)
Definition ndarray : Type := list float.

Section Dtype.
Variable f : format.

(** The sum of the products of the components, accumulated from the
    left.  (The order in which numpy's kernels add is theirs to choose;
    no property below depends on it.) *)
Definition sum_products (a b : ndarray) : float :=
  fold_left (fun acc xy => add f acc (mul f (fst xy) (snd xy))) (combine a b) pzero.

(** [np.dot(a, b)] on one-dimensional arrays: the sum of the products,
    and a [ValueError] when the shapes are not aligned. *)
Definition dot (a b : ndarray) : result float :=
  if Nat.eqb (length a) (length b)
  then OK (sum_products a b)
  else Raise (ValueError "shapes not aligned").

Definition dot_self (a : ndarray) : float :=
  fold_left (fun acc x => add f acc (mul f x x)) a pzero.

(** [np.linalg.norm(x)] of a one-dimensional real array: [sqrt(x.dot(x))]. *)
Definition linalg_norm (x : ndarray) : float := sqrt f (dot_self x).

(** [x / n] with a scalar [n]: numpy divides every component and, with
    its default error state, warns but does not raise on a zero divisor. *)
Definition divide (x : ndarray) (n : float) : ndarray :=
  map (fun c => div f c n) x.

(** [np.mean(l)]: the sum of the items divided by their number. *)
Definition mean (l : list float) : float :=
  div f (fold_left (add f) l pzero) (of_Z f (Z.of_nat (length l))).
End Dtype.

End Np.

(** ** Similarity and ranking *)

(** [{'index': i, 'similarity': s}] *)
Record SimilarityResult : Type :=
  { index : nat; similarity : Float.float }.

(** [l.sort(key=..., reverse=True)]: Python's sort is stable, also with
    [reverse=True]: items with equal keys keep their original order.  It is
    modelled by a stable insertion sort that uses only [<] on the keys,
    which gives CPython's result whenever [<] orders the keys totally
    (no NaN key). *)
Fixpoint insert_desc {A} (key : A -> Float.float) (x : A) (l : list A) : list A :=
  match l with
  | [] => [x]
  | y :: l' =>
      if Float.ltb (key x) (key y) then y :: insert_desc key x l'
      else x :: y :: l'
  end.

Definition sort_desc {A} (key : A -> Float.float) (l : list A) : list A :=
  fold_right (insert_desc key) [] l.

(** [v / np.linalg.norm(v)] on the float64 array of a JSON list *)
Definition normalize (v : Np.ndarray) : Np.ndarray :=
  Np.divide Float.binary64 v (Np.linalg_norm Float.binary64 v).

(** The [for i, candidate in enumerate(...)] loop, the same in both
    files' search, with the [similarities] list it appends to. *)
Fixpoint similarities_loop (query : Np.ndarray) (cands : list (nat * Np.ndarray))
    (similarities : list SimilarityResult) : result (list SimilarityResult) :=
  match cands with
  | [] => OK similarities
  | (i, candidate) :: rest =>
      (let cand := normalize candidate in
       s <- Np.dot Float.binary64 query cand ;;
       similarities_loop query rest
         (similarities ++ [ {| index := i; similarity := s |} ]))%result
  end.

Module ClipServer.

(** [CLIPEmbeddingService.calculate_similarity], clip_server.py 405-420 *)
Definition calculate_similarity (embedding1 embedding2 : list Float.float)
    : result Float.float :=
  let emb1 := embedding1 in
  let emb2 := embedding2 in
  let emb1 := normalize emb1 in
  let emb2 := normalize emb2 in
  Np.dot Float.binary64 emb1 emb2.

(** [CLIPEmbeddingService.find_most_similar], clip_server.py 422-444 *)
Definition find_most_similar (query_embedding : list Float.float)
    (candidate_embeddings : list (list Float.float)) (top_k : Z)
    : result (list SimilarityResult) :=
  (let query := normalize query_embedding in
   similarities <- similarities_loop query (enumerate candidate_embeddings) [] ;;
   let similarities := sort_desc similarity similarities in
   OK (slice_to similarities top_k))%result.

(** A Flask response: body or error message, and status. *)
Inductive response (A : Type) : Type :=
| Json (body : A) (status : Z)
| JsonError (error : pystr) (status : Z).
Arguments Json {A} body status.
Arguments JsonError {A} error status.

(** The route [/similarity], clip_server.py 528-547; [None] is a key
    missing from the JSON body. *)
Definition similarity_route (embedding1 embedding2 : option (list Float.float))
    : response Float.float :=
  match embedding1, embedding2 with
  | Some ((_ :: _) as e1), Some ((_ :: _) as e2) =>
      match calculate_similarity e1 e2 with
      | OK s => Json s 200
      | Raise e => JsonError (Str e) 500
      end
  | _, _ => JsonError (Lit "Two embeddings required") 400
  end.

End ClipServer.

Module ProductionServer.

(** The pydantic request models, production_server.py 78-85. *)
Record SimilarityRequest : Type :=
  { embedding1 : list Float.float; embedding2 : list Float.float }.

Record SearchRequest : Type :=
  { query_embedding : list Float.float;
    candidate_embeddings : list (list Float.float);
    top_k : Z }.

(** [top_k: int = Field(5, ge=1, le=100)]: a body whose [top_k] is out of
    range is rejected before the handler runs. *)
Definition SearchRequest_validate (r : SearchRequest) : result SearchRequest :=
  if (1 <=? top_k r) && (top_k r <=? 100) then OK r
  else Raise (RequestValidationError "top_k").

(** [calculate_similarity], production_server.py 611-629 *)
Definition calculate_similarity (request : SimilarityRequest) : result Float.float :=
  rtry
    (let emb1 := embedding1 request in
     let emb2 := embedding2 request in
     let emb1 := normalize emb1 in
     let emb2 := normalize emb2 in
     Np.dot Float.binary64 emb1 emb2)
    (fun e => Raise (HTTPException 500 (Str e))).

(** [search_similar], production_server.py 632-655 *)
Definition search_similar (request : SearchRequest) : result (list SimilarityResult) :=
  rtry
    (let query := normalize (query_embedding request) in
     similarities <- similarities_loop query (enumerate (candidate_embeddings request)) [] ;;
     let similarities := sort_desc similarity similarities in
     OK (slice_to similarities (top_k request)))%result
    (fun e => Raise (HTTPException 500 (Str e))).

(** [POST /search]: validation of the body, then the handler. *)
Definition post_search (body : SearchRequest) : result (list SimilarityResult) :=
  (request <- SearchRequest_validate body ;; search_similar request)%result.

End ProductionServer.

(** *** What the ranking is measured against *)

(** The cosine similarity both files compute for two vectors of one
    length: the dot product of the two normalised vectors. *)
Definition cosine (a b : list Float.float) : Float.float :=
  Np.sum_products Float.binary64 (normalize a) (normalize b).

(** Every candidate with its position and its similarity to the query. *)
Definition scored (query : list Float.float) (candidates : list (list Float.float))
    : list SimilarityResult :=
  map (fun ic => {| index := fst ic; similarity := cosine query (snd ic) |})
      (enumerate candidates).

(** [x] ranks before [y]: its score is at least [y]'s and, on equal
    scores, its candidate came first. *)
Definition rank_before (x y : SimilarityResult) : Prop :=
  Float.geb (similarity x) (similarity y) = true
  /\ (Float.eqb (similarity x) (similarity y) = true -> (index x < index y)%nat).

(** The score is a number. *)
Definition numeric (x : SimilarityResult) : Prop :=
  Float.is_nan (similarity x) = false.

(** [k] clamped to the range 1..100, as the specification words it. *)
Definition clamp_top_k (k : Z) : Z := Z.max 1 (Z.min 100 k).

(** ** The float32 wire format of the durable tier *)

Module Wire.
Import Float.

Definition bytes : Type := list Byte.byte.

Definition byte_of_Z (z : Z) : Byte.byte :=
  match Byte.of_N (Z.to_N (z mod 256)) with
  | Some b => b
  | None => Byte.x00
  end.

Definition Z_of_byte (b : Byte.byte) : Z := Z.of_N (Byte.to_N b).

Definition sign_bit (s : bool) : Z := if s then 2 ^ 31 else 0.

(** The IEEE 754 binary32 interchange encoding: sign, 8 exponent bits
    biased by 127, 23 fraction bits.  [spec_float] has one NaN, encoded
    as the quiet NaN [0x7FC00000]; the sign and payload of a NaN are not
    modelled. *)
Definition bits_of_b32 (x : float) : Z :=
  match x with
  | S754_zero s => sign_bit s
  | S754_infinity s => sign_bit s + 255 * 2 ^ 23
  | S754_nan => 255 * 2 ^ 23 + 2 ^ 22
  | S754_finite s m e =>
      if Z.pos m <? 2 ^ 23 then sign_bit s + Z.pos m
      else sign_bit s + (e + 150) * 2 ^ 23 + (Z.pos m - 2 ^ 23)
  end.

Definition b32_of_bits (w : Z) : float :=
  let s := 2 ^ 31 <=? w in
  let ex := (w / 2 ^ 23) mod 256 in
  let mant := w mod 2 ^ 23 in
  if ex =? 0 then
    if mant =? 0 then S754_zero s else S754_finite s (Z.to_pos mant) (-149)
  else if ex =? 255 then
    if mant =? 0 then S754_infinity s else S754_nan
  else S754_finite s (Z.to_pos (mant + 2 ^ 23)) (ex - 150).

(** Four bytes of a 32-bit word, least significant first (the byte order
    of the hosts the service runs on). *)
Definition le_bytes (w : Z) : bytes :=
  [byte_of_Z w; byte_of_Z (w / 2 ^ 8); byte_of_Z (w / 2 ^ 16); byte_of_Z (w / 2 ^ 24)].

Definition le_word (b0 b1 b2 b3 : Byte.byte) : Z :=
  Z_of_byte b0 + 2 ^ 8 * Z_of_byte b1 + 2 ^ 16 * Z_of_byte b2 + 2 ^ 24 * Z_of_byte b3.

(** [a.astype(np.float32)] *)
Definition astype_float32 (a : Np.ndarray) : Np.ndarray :=
  map (convert binary32) a.

(** [a.tobytes()] of a float32 array *)
Definition tobytes (a : Np.ndarray) : bytes :=
  flat_map (fun x => le_bytes (bits_of_b32 x)) a.

(** [np.frombuffer(buf, dtype=np.float32)]: one component per four bytes;
    a [ValueError] when the size is not a multiple of four. *)
Fixpoint frombuffer (buf : bytes) : result Np.ndarray :=
  match buf with
  | [] => OK []
  | b0 :: b1 :: b2 :: b3 :: rest =>
      match frombuffer rest with
      | OK a => OK (b32_of_bits (le_word b0 b1 b2 b3) :: a)
      | Raise e => Raise e
      end
  | _ => Raise (ValueError "buffer size must be a multiple of element size")
  end.

End Wire.

(** ** Collaborators *)

(** The Redis client: [get] and [setex] may answer or raise, and change
    the store in any way. *)
Class DurableStore : Type :=
  { Redis : Type;
    redis_get : Redis -> string -> result (option Wire.bytes) * Redis;
    redis_setex : Redis -> string -> Z -> Wire.bytes -> result unit * Redis }.

(** [hashlib.md5(...).hexdigest()] on the UTF-8 bytes of a string, and the
    CLIP model behind the two [try] blocks of [encode_text] (tokenise,
    encode, normalise: one float32 row per text, in order) and of
    [encode_image] (decode, validate, preprocess, encode, normalise: row 0
    of the one-row batch). *)
Class EmbeddingOracle : Type :=
  { md5_hexdigest : string -> string;
    clip_encode_text : list string -> result (list Np.ndarray);
    clip_encode_image : string -> result Np.ndarray }.

(** [time.time()]: the reading of the [n]-th call, in seconds. *)
Class Clock : Type := { time_at : nat -> Q }.

(** ** The service and its state monad *)

Section Service.
Context `{DurableStore} `{EmbeddingOracle} `{Clock}.

(** [ProductionCLIPService] with the Redis store it holds, the two cache
    counters and the number of clock readings taken so far. *)
Record World : Type :=
  { cache_enabled : bool;
    redis_client : option Redis;
    memory_cache : gmap string (Np.ndarray * Q);
    cache_ttl : Z;
    max_memory_cache_size : Z;
    request_count : nat;
    EMBEDDING_CACHE_HITS : nat;
    EMBEDDING_CACHE_MISSES : nat;
    ticks : nat }.

Definition set_redis_client (r : option Redis) (w : World) : World :=
  {| cache_enabled := cache_enabled w; redis_client := r;
     memory_cache := memory_cache w; cache_ttl := cache_ttl w;
     max_memory_cache_size := max_memory_cache_size w;
     request_count := request_count w;
     EMBEDDING_CACHE_HITS := EMBEDDING_CACHE_HITS w;
     EMBEDDING_CACHE_MISSES := EMBEDDING_CACHE_MISSES w; ticks := ticks w |}.

Definition set_memory_cache (m : gmap string (Np.ndarray * Q)) (w : World) : World :=
  {| cache_enabled := cache_enabled w; redis_client := redis_client w;
     memory_cache := m; cache_ttl := cache_ttl w;
     max_memory_cache_size := max_memory_cache_size w;
     request_count := request_count w;
     EMBEDDING_CACHE_HITS := EMBEDDING_CACHE_HITS w;
     EMBEDDING_CACHE_MISSES := EMBEDDING_CACHE_MISSES w; ticks := ticks w |}.

Definition set_counters (rc hits misses tk : nat) (w : World) : World :=
  {| cache_enabled := cache_enabled w; redis_client := redis_client w;
     memory_cache := memory_cache w; cache_ttl := cache_ttl w;
     max_memory_cache_size := max_memory_cache_size w;
     request_count := rc;
     EMBEDDING_CACHE_HITS := hits;
     EMBEDDING_CACHE_MISSES := misses; ticks := tk |}.

Definition M (A : Type) : Type := World -> result A * World.

Definition ret {A} (a : A) : M A := fun w => (OK a, w).
Definition raise {A} (e : exn) : M A := fun w => (Raise e, w).
Definition bind {A B} (m : M A) (k : A -> M B) : M B :=
  fun w => match m w with
           | (OK a, w') => k a w'
           | (Raise e, w') => (Raise e, w')
           end.
(** [try: body  except Exception as e: handler e]; what [body] did to the
    world before it raised stays done. *)
Definition try_except {A} (body : M A) (handler : exn -> M A) : M A :=
  fun w => match body w with
           | (OK a, w') => (OK a, w')
           | (Raise e, w') => handler e w'
           end.
Definition get_world : M World := fun w => (OK w, w).
Definition modify (g : World -> World) : M unit := fun w => (OK tt, g w).
Definition lift {A} (r : result A) : M A := fun w => (r, w).

Notation "x <- c1 ;; c2" := (bind c1 (fun x => c2))
  (at level 100, c1 at next level, right associativity).
Notation "c1 ;;; c2" := (bind c1 (fun _ => c2))
  (at level 100, right associativity).

(** The world after one more clock reading, one more hit, miss or request. *)
Definition tick (w : World) : World :=
  set_counters (request_count w) (EMBEDDING_CACHE_HITS w)
               (EMBEDDING_CACHE_MISSES w) (S (ticks w)) w.
Definition count_hit (w : World) : World :=
  set_counters (request_count w) (S (EMBEDDING_CACHE_HITS w))
               (EMBEDDING_CACHE_MISSES w) (ticks w) w.
Definition count_miss (w : World) : World :=
  set_counters (request_count w) (EMBEDDING_CACHE_HITS w)
               (S (EMBEDDING_CACHE_MISSES w)) (ticks w) w.
Definition count_request (w : World) : World :=
  set_counters (S (request_count w)) (EMBEDDING_CACHE_HITS w)
               (EMBEDDING_CACHE_MISSES w) (ticks w) w.

(** [del self.memory_cache[key]] and [self.memory_cache[key] = (embedding, now)] *)
Definition evict (key : string) (w : World) : World :=
  set_memory_cache (delete key (memory_cache w)) w.
Definition remember (key : string) (embedding : Np.ndarray) (now : Q) (w : World) : World :=
  set_memory_cache (<[key := (embedding, now)]> (memory_cache w)) w.

Definition time_time : M Q := fun w => (OK (time_at (ticks w)), tick w).
Definition hits_inc : M unit := modify count_hit.
Definition misses_inc : M unit := modify count_miss.
Definition request_count_inc : M unit := modify count_request.

(** [self.redis_client.get(key)] and [self.redis_client.setex(key, ttl, value)]
    on the client [r] the service holds. *)
Definition redis_client_get (r : Redis) (key : string) : M (option Wire.bytes) :=
  fun w => let '(res, r') := redis_get r key in (res, set_redis_client (Some r') w).
Definition redis_client_setex (r : Redis) (key : string) (ttl : Z) (value : Wire.bytes) : M unit :=
  fun w => let '(res, r') := redis_setex r key ttl value in (res, set_redis_client (Some r') w).

Definition Qltb (x y : Q) : bool := negb (Qle_bool y x).

(** [_get_cache_key], production_server.py 187-191 *)
Definition _get_cache_key (data : string) (prefix : string) : string :=
  (prefix ++ ":" ++ md5_hexdigest data)%string.

(** [_get_from_cache], production_server.py 193-219 (the same text is in
    clip_server.py 192-218).  The [try] block yields [Some a] where the
    code returns [a] from inside it and [None] where control leaves the
    block, by falling through or through the [except] clause. *)
Definition _get_from_cache (cache_key : string) : M (option Np.ndarray) :=
  w <- get_world ;;
  if negb (cache_enabled w) then ret None else
  returned <-
    try_except
      (from_redis <-
         match redis_client w with
         | Some r =>
             cached <- redis_client_get r cache_key ;;
             match cached with
             | Some (b :: bs) =>
                 hits_inc ;;;
                 a <- lift (Wire.frombuffer (b :: bs)) ;;
                 ret (Some a)
             | _ => ret None
             end
         | None => ret None
         end ;;
       match from_redis with
       | Some a => ret (Some a)
       | None =>
           w <- get_world ;;
           match memory_cache w !! cache_key with
           | Some (cached_data, timestamp) =>
               now <- time_time ;;
               if Qltb (now - timestamp) (inject_Z (cache_ttl w))
               then hits_inc ;;; ret (Some cached_data)
               else modify (evict cache_key) ;;; ret None
           | None => ret None
           end
       end)
      (fun e => ret None) ;;
  match returned with
  | Some a => ret (Some a)
  | None => misses_inc ;;; ret None
  end.

(** [_store_in_cache], production_server.py 221-240 (clip_server.py 220-239) *)
Definition _store_in_cache (cache_key : string) (embedding : Np.ndarray) : M unit :=
  w <- get_world ;;
  if negb (cache_enabled w) then ret tt else
  try_except
    (match redis_client w with
     | Some r =>
         redis_client_setex r cache_key (cache_ttl w)
           (Wire.tobytes (Wire.astype_float32 embedding))
     | None => ret tt
     end ;;;
     w <- get_world ;;
     if Z.of_nat (size (memory_cache w)) <? max_memory_cache_size w
     then
       now <- time_time ;;
       modify (remember cache_key embedding now)
     else ret tt)
    (fun e => ret tt).

(** Truth value of an [Optional[str]]: [None] and the empty string are
    false. *)
Definition truthy (s : option string) : bool :=
  match s with
  | Some s => negb (String.eqb s "")
  | None => false
  end.

(** [texts: Union[str, List[str]]] *)
Inductive text_input : Type :=
| Single (text : string)
| Many (texts : list string).

(** [a[0]] on a sequence of rows *)
Definition row0 (a : list Np.ndarray) : result Np.ndarray :=
  match a with
  | r :: _ => OK r
  | [] => Raise (IndexError "index 0 is out of bounds")
  end.

(** [encode_text], production_server.py 281-316 *)
Definition encode_text (texts : text_input) (cache_key : option string)
    : M (list Np.ndarray) :=
  let is_single := match texts with Single _ => true | Many _ => false end in
  let texts := match texts with Single t => [t] | Many l => l end in
  w <- get_world ;;
  lookup <-
    (if is_single && cache_enabled w then
       let cache_key :=
         if truthy cache_key then cache_key
         else Some (_get_cache_key (List.hd "" texts) "text") in
       cached <- _get_from_cache (default "" cache_key) ;;
       ret (cache_key, cached)
     else ret (cache_key, None)) ;;
  let '(cache_key, cached) := lookup in
  match cached with
  | Some cached => ret [cached]
  | None =>
      start_time <- time_time ;;
      embeddings <-
        try_except (lift (clip_encode_text texts))
          (fun e => raise (HTTPException 500 (Fmt "Text encoding failed: " e))) ;;
      processing_time <- time_time ;;
      (if is_single && cache_enabled w && truthy cache_key then
         e0 <- lift (row0 embeddings) ;;
         _store_in_cache (default "" cache_key) e0
       else ret tt) ;;;
      request_count_inc ;;;
      ret embeddings
  end.

(** [encode_image], production_server.py 318-382, for the [str] image
    data every caller in the file passes. *)
Definition encode_image (image_data : string) (cache_key : option string)
    : M Np.ndarray :=
  w <- get_world ;;
  lookup <-
    (if cache_enabled w && truthy cache_key then
       cached <- _get_from_cache (default "" cache_key) ;;
       ret (cache_key, cached)
     else if cache_enabled w then
       let cache_key := _get_cache_key image_data "image" in
       cached <- _get_from_cache cache_key ;;
       ret (Some cache_key, cached)
     else ret (cache_key, None)) ;;
  let '(cache_key, cached) := lookup in
  match cached with
  | Some cached => ret cached
  | None =>
      start_time <- time_time ;;
      result <-
        try_except (lift (clip_encode_image image_data))
          (fun e => raise (HTTPException 400 (Fmt "Image processing failed: " e))) ;;
      processing_time <- time_time ;;
      (if cache_enabled w && truthy cache_key then
         _store_in_cache (default "" cache_key) result
       else ret tt) ;;;
      request_count_inc ;;;
      ret result
  end.

(** [items: List[Union[str, dict]]]; the dicts carry strings. *)
Inductive item : Type :=
| ItemStr (s : string)
| ItemDict (d : gmap string string).

(** [item if isinstance(item, str) else item.get('image', '')], the same
    for ['text'], and [item.get('cache_key') if isinstance(item, dict) else None] *)
Definition item_image (it : item) : string :=
  match it with ItemStr s => s | ItemDict d => default "" (d !! "image") end.
Definition item_text (it : item) : string :=
  match it with ItemStr s => s | ItemDict d => default "" (d !! "text") end.
Definition item_cache_key (it : item) : option string :=
  match it with ItemDict d => d !! "cache_key" | ItemStr _ => None end.

(** The [for item in items] loop of [batch_encode], with the [results]
    list it appends to. *)
Fixpoint batch_image_loop (items : list item) (results : list Np.ndarray)
    : M (list Np.ndarray) :=
  match items with
  | [] => ret results
  | item :: rest =>
      let image_data := item_image item in
      let cache_key := item_cache_key item in
      embedding <- encode_image image_data cache_key ;;
      batch_image_loop rest (results ++ [embedding])
  end.

(** [batch_encode], production_server.py 384-398 *)
Definition batch_encode (items : list item) (batch_type : string)
    : M (list Np.ndarray) :=
  if String.eqb batch_type "text" then
    let texts := map item_text items in
    encode_text (Many texts) None
  else if String.eqb batch_type "image" then
    batch_image_loop items []
  else raise (HTTPException 400 (Lit "Invalid batch_type")).

(** The image batch as the specification words it: the items one after
    the other, each through the single-item path, the results in input
    order. *)
Fixpoint encode_each (items : list item) : M (list Np.ndarray) :=
  match items with
  | [] => ret []
  | item :: rest =>
      embedding <- encode_image (item_image item) (item_cache_key item) ;;
      embeddings <- encode_each rest ;;
      ret (embedding :: embeddings)
  end.

(** [ConsistencyRequest], production_server.py 87-91, and the dict the
    handler returns. *)
Record ConsistencyRequest : Type :=
  { generated_image : string;
    reference_images : list string;
    text_description : option string;
    threshold : Float.float }.

Record ConsistencyVerdict : Type :=
  { consistency_score : Float.float;
    image_similarities : list Float.float;
    text_similarity : option Float.float;
    passed : bool;
    verdict_threshold : Float.float;
    embedding : list Float.float }.

(** [float(np.dot(a, b))] on two float32 embeddings *)
Definition float_dot (a b : Np.ndarray) : result Float.float :=
  match Np.dot Float.binary32 a b with
  | OK s => OK (Float.convert Float.binary64 s)
  | Raise e => Raise e
  end.

(** The [for ref_image in request.reference_images] loop. *)
Fixpoint reference_loop (gen_embedding : Np.ndarray) (refs : list string)
    (image_similarities : list Float.float) : M (list Float.float) :=
  match refs with
  | [] => ret image_similarities
  | ref_image :: rest =>
      ref_embedding <- encode_image ref_image None ;;
      similarity <- lift (float_dot gen_embedding ref_embedding) ;;
      reference_loop gen_embedding rest (image_similarities ++ [similarity])
  end.

(** [check_character_consistency], production_server.py 565-608, on an
    initialised service. *)
Definition check_character_consistency (request : ConsistencyRequest)
    : M ConsistencyVerdict :=
  try_except
    (gen_embedding <- encode_image (generated_image request) None ;;
     image_similarities <- reference_loop gen_embedding (reference_images request) [] ;;
     text_similarity <-
       (if truthy (text_description request) then
          text_embedding <- encode_text (Single (default "" (text_description request))) None ;;
          r <- lift (row0 text_embedding) ;;
          s <- lift (float_dot gen_embedding r) ;;
          ret (Some s)
        else ret None) ;;
     let avg_image_similarity :=
       match image_similarities with
       | [] => Float.pzero
       | _ => Np.mean Float.binary64 image_similarities
       end in
     let consistency_score := avg_image_similarity in
     let consistency_score :=
       match text_similarity with
       | Some text_similarity =>
           Float.add Float.binary64
             (Float.mul Float.binary64 Float.lit_0_7 avg_image_similarity)
             (Float.mul Float.binary64 Float.lit_0_3 text_similarity)
       | None => consistency_score
       end in
     let passed := Float.geb consistency_score (threshold request) in
     ret {| consistency_score := consistency_score;
            image_similarities := image_similarities;
            text_similarity := text_similarity;
            passed := passed;
            verdict_threshold := threshold request;
            embedding := map (Float.convert Float.binary64) gen_embedding |})
    (fun e => raise (HTTPException 500 (Str e))).

(** *** The fast tier on its own, as the specification words it *)

(** A fast-tier lookup: a hit is checked against the TTL with the
    timestamp recorded with it; an expired entry is evicted and reported
    absent. *)
Definition fast_tier_get (key : string) : M (option Np.ndarray) :=
  fun w =>
    match memory_cache w !! key with
    | None => (OK None, count_miss w)
    | Some (data, timestamp) =>
        if Qltb (time_at (ticks w) - timestamp) (inject_Z (cache_ttl w))
        then (OK (Some data), count_hit (tick w))
        else (OK None, count_miss (evict key (tick w)))
    end.

(** A fast-tier write: accepted only while the occupancy is below the
    capacity, dropped otherwise. *)
Definition fast_tier_put (key : string) (embedding : Np.ndarray) (w : World) : World :=
  if Z.of_nat (size (memory_cache w)) <? max_memory_cache_size w
  then remember key embedding (time_at (ticks w)) (tick w)
  else w.

(** A caller's sequence of cache operations. *)
Inductive cache_op : Type :=
| Put (key : string) (embedding : Np.ndarray)
| Get (key : string).

Definition run_op (op : cache_op) : M unit :=
  match op with
  | Put key embedding => _store_in_cache key embedding
  | Get key => _get_from_cache key ;;; ret tt
  end.

Fixpoint run_ops (ops : list cache_op) : M unit :=
  match ops with
  | [] => ret tt
  | op :: rest => run_op op ;;; run_ops rest
  end.

End Service.

(** ** Device selection *)

(** What [torch.cuda] answers: whether CUDA is available, and the total
    memory of every device, in device order ([device_count()] is their
    number). *)
Record Cuda : Type := { is_available : bool; total_memory : list Z }.

(** The [for i in range(gpu_count)] loop of [_select_optimal_device]. *)
Fixpoint best_device_loop (memories : list Z) (i : nat) (max_memory : Z)
    (best_device : nat) : nat :=
  match memories with
  | [] => best_device
  | memory :: rest =>
      if max_memory <? memory then best_device_loop rest (S i) memory i
      else best_device_loop rest (S i) max_memory best_device
  end.

(** [_select_optimal_device], production_server.py 132-146 (clip_server.py
    138-152) *)
Definition _select_optimal_device (cuda : Cuda) : string :=
  if is_available cuda then
    let gpu_count := length (total_memory cuda) in
    if (0 <? gpu_count)%nat then
      ("cuda:" ++ pretty (best_device_loop (total_memory cuda) 0 0 0))%string
    else "cpu"
  else "cpu".

(** ** The request models and the endpoints of production_server.py *)

Module TextEmbeddingRequest.
Record t : Type := { text : string + list string; cache_key : option string }.
End TextEmbeddingRequest.

(** ['embeddings'] of the text response: one vector for a [str] body, a
    list of vectors for a list. *)
Module TextEmbeddingResponse.
Inductive vectors : Type :=
| One (e : list Float.float)
| Rows (es : list (list Float.float)).
Record t : Type := { embeddings : vectors; dimension : Z }.
End TextEmbeddingResponse.

Module ImageEmbeddingRequest.
Record t : Type := { image : string; cache_key : option string }.

(** [validate_image]: [if not v or len(v) < 10: raise ValueError]; the
    image is base64 text, one character per byte. *)
Definition validate_image (v : string) : result string :=
  if (String.length v <? 10)%nat then Raise (ValueError "Invalid image data")
  else OK v.

(** The body as FastAPI hands it to the handler, or the rejection. *)
Definition validate (r : t) : result t :=
  match validate_image (image r) with
  | OK _ => OK r
  | Raise _ => Raise (RequestValidationError "image")
  end.
End ImageEmbeddingRequest.

Module ImageEmbeddingResponse.
Record t : Type := { embedding : list Float.float; dimension : Z }.
End ImageEmbeddingResponse.

Module MultimodalRequest.
Record t : Type := { text : string; image : string; cache_key : option string }.
End MultimodalRequest.

Module MultimodalResponse.
Record t : Type :=
  { text_embedding : list Float.float;
    image_embedding : list Float.float;
    cross_modal_similarity : Float.float }.
End MultimodalResponse.

Module BatchResponse.
Record t : Type :=
  { embeddings : list (list Float.float); dimension : Z; count : nat }.
End BatchResponse.

(** [ndarray.tolist()] of a float32 array: Python floats. *)
Definition tolist (a : Np.ndarray) : list Float.float :=
  map (Float.convert Float.binary64) a.

(** [threshold: float = Field(0.85, ge=0.0, le=1.0)] *)
Definition threshold_in_range (t : Float.float) : bool :=
  Float.geb t Float.pzero && Float.leb t (Float.of_Z Float.binary64 1).

Section Endpoints.
Context `{DurableStore} `{EmbeddingOracle} `{Clock}.

(** [self.embedding_dim], fixed when the service is built. *)
Variable embedding_dim : Z.

Notation "x <- c1 ;; c2" := (bind c1 (fun x => c2))
  (at level 100, c1 at next level, right associativity).

(** An endpoint runs on the global [clip_service: Optional[...]]. *)
Definition Endpoint (A : Type) : Type := option World -> result A * option World.

(** [if not clip_service: raise HTTPException(status_code=503, ...)], then
    the handler on the service. *)
Definition with_service {A} (handler : M A) : Endpoint A :=
  fun clip_service =>
    match clip_service with
    | None => (Raise (HTTPException 503 (Lit "Service not initialized")), None)
    | Some w => let (r, w') := handler w in (r, Some w')
    end.

(** A body that fails validation never reaches the handler. *)
Definition rejected {A} (e : exn) : Endpoint A :=
  fun clip_service => (Raise e, clip_service).

(** [embed_text], production_server.py 481-502 *)
Definition embed_text (request : TextEmbeddingRequest.t)
    : Endpoint TextEmbeddingResponse.t :=
  with_service
    (try_except
       (embeddings <- encode_text
                        (match TextEmbeddingRequest.text request with
                         | inl t => Single t
                         | inr l => Many l
                         end)
                        (TextEmbeddingRequest.cache_key request) ;;
        result <-
          match TextEmbeddingRequest.text request with
          | inr _ => ret (TextEmbeddingResponse.Rows (map tolist embeddings))
          | inl _ =>
              e0 <- lift (row0 embeddings) ;;
              ret (TextEmbeddingResponse.One (tolist e0))
          end ;;
        ret {| TextEmbeddingResponse.embeddings := result;
               TextEmbeddingResponse.dimension := embedding_dim |})
       (fun e => raise (HTTPException 500 (Str e)))).

(** [embed_image], production_server.py 505-520 *)
Definition embed_image (request : ImageEmbeddingRequest.t)
    : Endpoint ImageEmbeddingResponse.t :=
  with_service
    (try_except
       (embedding <- encode_image (ImageEmbeddingRequest.image request)
                                  (ImageEmbeddingRequest.cache_key request) ;;
        ret {| ImageEmbeddingResponse.embedding := tolist embedding;
               ImageEmbeddingResponse.dimension := embedding_dim |})
       (fun e => raise (HTTPException 500 (Str e)))).

(** [POST /embed/image]: the validator of the request model, then the
    handler. *)
Definition post_embed_image (body : ImageEmbeddingRequest.t)
    : Endpoint ImageEmbeddingResponse.t :=
  match ImageEmbeddingRequest.validate body with
  | OK request => embed_image request
  | Raise e => rejected e
  end.

(** [embed_multimodal], production_server.py 523-543 *)
Definition embed_multimodal (request : MultimodalRequest.t)
    : Endpoint MultimodalResponse.t :=
  with_service
    (try_except
       (text_embedding <- encode_text (Single (MultimodalRequest.text request)) None ;;
        image_embedding <- encode_image (MultimodalRequest.image request) None ;;
        t0 <- lift (row0 text_embedding) ;;
        similarity <- lift (float_dot t0 image_embedding) ;;
        ret {| MultimodalResponse.text_embedding := tolist t0;
               MultimodalResponse.image_embedding := tolist image_embedding;
               MultimodalResponse.cross_modal_similarity := similarity |})
       (fun e => raise (HTTPException 500 (Str e)))).

(** [items: ... max_items=50] and [batch_type: ... pattern="^(text|image)$"],
    the pattern matched against the whole string. *)
Definition BatchRequest_valid (items : list item) (batch_type : string) : bool :=
  (length items <=? 50)%nat
  && (String.eqb batch_type "text" || String.eqb batch_type "image").

(** [embed_batch], production_server.py 546-562 *)
Definition embed_batch (items : list item) (batch_type : string)
    : Endpoint BatchResponse.t :=
  with_service
    (try_except
       (embeddings <- batch_encode items batch_type ;;
        ret {| BatchResponse.embeddings := map tolist embeddings;
               BatchResponse.dimension := embedding_dim;
               BatchResponse.count := length embeddings |})
       (fun e => raise (HTTPException 500 (Str e)))).

Definition post_embed_batch (items : list item) (batch_type : string)
    : Endpoint BatchResponse.t :=
  if BatchRequest_valid items batch_type then embed_batch items batch_type
  else rejected (RequestValidationError "items or batch_type").

(** [POST /character/consistency]: the threshold is checked by the
    request model, [clip_service] by the handler. *)
Definition post_character_consistency (body : ConsistencyRequest)
    : Endpoint ConsistencyVerdict :=
  if threshold_in_range (threshold body)
  then with_service (check_character_consistency body)
  else rejected (RequestValidationError "threshold").

End Endpoints.

(** ** The request-tracking middleware *)

(** The Prometheus metrics [track_requests] writes. *)
Record Metrics : Type :=
  { ACTIVE_CONNECTIONS : Z;
    REQUEST_COUNT : gmap (string * string) nat;
    REQUEST_LATENCY : list Q }.

Definition connections_add (d : Z) (m : Metrics) : Metrics :=
  {| ACTIVE_CONNECTIONS := ACTIVE_CONNECTIONS m + d;
     REQUEST_COUNT := REQUEST_COUNT m;
     REQUEST_LATENCY := REQUEST_LATENCY m |}.

Definition observe_request (method path : string) (duration : Q) (m : Metrics) : Metrics :=
  {| ACTIVE_CONNECTIONS := ACTIVE_CONNECTIONS m;
     REQUEST_COUNT :=
       <[(method, path) := S (default 0%nat (REQUEST_COUNT m !! (method, path)))]>
         (REQUEST_COUNT m);
     REQUEST_LATENCY := REQUEST_LATENCY m ++ [duration] |}.

(** [track_requests], production_server.py 445-463.  [call_next] is the
    rest of the application, on its own state; [start_time] and
    [end_time] are the two readings of [time.time()]; the [finally]
    clause runs on both ways out. *)
Definition track_requests {S A} (method path : string) (start_time end_time : Q)
    (call_next : S -> result A * S) (m : Metrics) (st : S)
    : result A * S * Metrics :=
  let m := connections_add 1 m in
  match call_next st with
  | (OK response, st') =>
      let duration := (end_time - start_time)%Q in
      let m := observe_request method path duration m in
      (OK response, st', connections_add (-1) m)
  | (Raise e, st') => (Raise e, st', connections_add (-1) m)
  end.

(** ** Sample collaborators, for running the model *)

(** A store that keeps what it is given and never fails. *)
Definition dict_store : DurableStore :=
  {| Redis := gmap string Wire.bytes;
     redis_get := fun r key => (OK (r !! key), r);
     redis_setex := fun r key ttl value => (OK tt, <[key := value]> r) |}.

(** A store that is down: every call raises. *)
Definition down_store : DurableStore :=
  {| Redis := unit;
     redis_get := fun r key => (Raise (ExternalError "redis" "Connection refused"), r);
     redis_setex := fun r key ttl value =>
       (Raise (ExternalError "redis" "Connection refused"), r) |}.

Definition f32 (z : Z) : Float.float := Float.of_Z Float.binary32 z.
Definition f64 (z : Z) : Float.float := Float.of_Z Float.binary64 z.

(** An oracle on two-dimensional embeddings: ["x"] is the unit vector
    along the first axis, ["y"] along the second, ["d"] the normalised
    diagonal as float32 has it; other images do not decode.  The digest
    is the content itself. *)
Definition sample_embedding (content : string) : result Np.ndarray :=
  if String.eqb content "x" then OK [f32 1; f32 0]
  else if String.eqb content "y" then OK [f32 0; f32 1]
  else if String.eqb content "d" then
    OK (Np.divide Float.binary32 [f32 1; f32 1]
          (Np.linalg_norm Float.binary32 [f32 1; f32 1]))
  else Raise (ExternalError "PIL" "cannot identify image file").

Fixpoint sample_rows (texts : list string) : result (list Np.ndarray) :=
  match texts with
  | [] => OK []
  | t :: rest =>
      match sample_embedding t, sample_rows rest with
      | OK e, OK es => OK (e :: es)
      | Raise e, _ => Raise e
      | _, Raise e => Raise e
      end
  end.

Definition sample_oracle : EmbeddingOracle :=
  {| md5_hexdigest := fun data => data;
     clip_encode_text := sample_rows;
     clip_encode_image := sample_embedding |}.

(** A clock that advances one second per reading. *)
Definition sample_clock : Clock := {| time_at := fun n => inject_Z (Z.of_nat n) |}.

(** A fresh service: [__init__] with the environment's TTL and capacity. *)
Definition fresh_world `{DurableStore} (enabled : bool) (client : option Redis)
    (ttl capacity : Z) : World :=
  {| cache_enabled := enabled; redis_client := client; memory_cache := ∅;
     cache_ttl := ttl; max_memory_cache_size := capacity; request_count := 0;
     EMBEDDING_CACHE_HITS := 0; EMBEDDING_CACHE_MISSES := 0; ticks := 0 |}.

Definition sample_vector : Np.ndarray := [f32 1; f32 0].

(** A service on the store that never fails, nothing cached yet, with
    room for [capacity] entries in the fast tier. *)
Definition cold_world (capacity : Z) : @World dict_store :=
  @fresh_world dict_store true (Some ∅) 3600 capacity.

(** A service with a TTL of one minute whose fast tier holds
    [sample_vector] under ["k"], recorded at time 0, after [tk] clock
    readings, with the Redis client [client]. *)
Definition warm_world `{DurableStore} (client : option Redis) (tk : nat) : World :=
  {| cache_enabled := true; redis_client := client;
     memory_cache := {[ "k" := (sample_vector, 0%Q) ]};
     cache_ttl := 60; max_memory_cache_size := 1000; request_count := 0;
     EMBEDDING_CACHE_HITS := 0; EMBEDDING_CACHE_MISSES := 0; ticks := tk |}.

(** The warm service on the store that is down, with and without the
    client, and on the store that never fails holding [store]. *)
Definition down_warm : @World down_store := @warm_world down_store (Some tt) 0.
Definition clientless_warm : @World down_store := @warm_world down_store None 0.
Definition dict_warm (store : gmap string Wire.bytes) (tk : nat) : @World dict_store :=
  @warm_world dict_store (Some store) tk.

(** Three operations against a fast tier with room for one entry. *)
Definition sample_ops : list cache_op :=
  [Put "a" sample_vector; Put "b" sample_vector; Get "a"].

(** A check of ["x"] against the references ["x"] and ["d"], with the
    text ["y"], at threshold 0.7. *)
Definition sample_request : ConsistencyRequest :=
  {| generated_image := "x"; reference_images := ["x"; "d"];
     text_description := Some "y"; threshold := Float.lit_0_7 |}.

(** The verdict of that check on the sample oracle: similarities 1.0 and
    0.70710677 (the float32 diagonal), text similarity 0.0, score
    0.7 * 0.853553... + 0.3 * 0.0 = 0.597487..., below the threshold. *)
Definition sample_verdict : ConsistencyVerdict :=
  {| consistency_score := S754_finite false 5381687786392780 (-53);
     image_similarities :=
       [S754_finite false 4503599627370496 (-52);
        S754_finite false 6369051563524096 (-53)];
     text_similarity := Some (S754_zero false);
     passed := false;
     verdict_threshold := Float.lit_0_7;
     embedding := [S754_finite false 4503599627370496 (-52); S754_zero false] |}.

(** * Properties *)

(** ** Facts about the float operations *)

Module FloatFacts.
Import Float.

Lemma div_zero_nan_or_inf f x s :
  nan_or_inf (div f x (S754_zero s)) = true.
Proof. destruct x; reflexivity. Qed.

Lemma mul_nan_or_inf_l f x y :
  nan_or_inf x = true -> nan_or_inf (mul f x y) = true.
Proof. destruct x, y; simpl; try discriminate; reflexivity. Qed.

Lemma mul_nan_or_inf_r f x y :
  nan_or_inf y = true -> nan_or_inf (mul f x y) = true.
Proof. destruct x, y; simpl; try discriminate; reflexivity. Qed.

Lemma add_nan_or_inf_l f x y :
  nan_or_inf x = true -> nan_or_inf (add f x y) = true.
Proof.
  destruct x as [|sx| |], y as [|sy| |]; simpl; try discriminate; try reflexivity.
  destruct sx, sy; reflexivity.
Qed.

Lemma add_nan_or_inf_r f x y :
  nan_or_inf y = true -> nan_or_inf (add f x y) = true.
Proof.
  destruct x as [|sx| |], y as [|sy| |]; simpl; try discriminate; try reflexivity.
  destruct sx, sy; reflexivity.
Qed.

Lemma compare_total x y :
  is_nan x = false -> is_nan y = false -> exists c, SFcompare x y = Some c.
Proof. destruct x, y; simpl; try discriminate; eauto. Qed.

Lemma compare_antisym x y :
  SFcompare y x = option_map CompOpp (SFcompare x y).
Proof.
  destruct x as [sx|sx| |sx mx ex], y as [sy|sy| |sy my ey]; simpl;
    try reflexivity; try (destruct sx; reflexivity); try (destruct sy; reflexivity);
    try (destruct sx, sy; reflexivity).
  change (Pos.compare_cont Eq) with Pos.compare.
  destruct sx, sy; simpl; try reflexivity;
    rewrite (Z.compare_antisym ex ey); destruct (ex ?= ey); simpl; try reflexivity;
    rewrite (Pos.compare_antisym mx my);
    try rewrite CompOpp_involutive; reflexivity.
Qed.

Ltac compare_cases :=
  repeat match goal with
  | H : context [Z.compare ?a ?b] |- _ => destruct (Z.compare_spec a b)
  | |- context [Z.compare ?a ?b] => destruct (Z.compare_spec a b)
  | H : context [Pos.compare ?a ?b] |- _ => destruct (Pos.compare_spec a b)
  | |- context [Pos.compare ?a ?b] => destruct (Pos.compare_spec a b)
  end.

Lemma leb_trans x y z : leb x y = true -> leb y z = true -> leb x z = true.
Proof.
  unfold leb, SFleb.
  destruct x as [sx|sx| |sx mx ex], y as [sy|sy| |sy my ey], z as [sz|sz| |sz mz ez];
    simpl; try discriminate; try reflexivity;
    try (destruct sx; simpl; try discriminate; try reflexivity);
    try (destruct sy; simpl; try discriminate; try reflexivity);
    try (destruct sz; simpl; try discriminate; try reflexivity).
  all: change (Pos.compare_cont Eq) with Pos.compare.
  all: intros; compare_cases; simpl in *; try discriminate; try reflexivity; try lia.
Qed.

Lemma geb_trans x y z : geb x y = true -> geb y z = true -> geb x z = true.
Proof. unfold geb. intros Hxy Hyz. exact (leb_trans z y x Hyz Hxy). Qed.

Lemma ltb_false_geb x y :
  is_nan x = false -> is_nan y = false -> ltb x y = false -> geb x y = true.
Proof.
  intros Hx Hy. unfold ltb, geb, SFltb, SFleb. rewrite (compare_antisym x y).
  destruct (compare_total x y Hx Hy) as [c ->]. destruct c; simpl; congruence.
Qed.

Lemma ltb_true_geb x y : ltb x y = true -> geb y x = true.
Proof. unfold ltb, geb, SFltb, SFleb. destruct (SFcompare x y) as [[]|]; congruence. Qed.

Lemma ltb_true_not_eqb x y : ltb x y = true -> eqb y x = false.
Proof.
  unfold ltb, eqb, SFltb, SFeqb. rewrite (compare_antisym x y).
  destruct (SFcompare x y) as [[]|]; simpl; congruence.
Qed.

Lemma eqb_geb x y : eqb x y = true -> geb x y = true.
Proof.
  unfold eqb, geb, SFeqb, SFleb. rewrite (compare_antisym x y).
  destruct (SFcompare x y) as [[]|]; simpl; congruence.
Qed.

Lemma geb_antisym x y : geb x y = true -> geb y x = true -> eqb x y = true.
Proof.
  unfold geb, eqb, SFleb, SFeqb. rewrite (compare_antisym x y).
  destruct (SFcompare x y) as [[]|]; simpl; congruence.
Qed.

End FloatFacts.

(** ** Cosine similarity: mismatched shapes and zero norms *)

Section SimilarityFacts.
Import Float FloatFacts.

Lemma dot_mismatch f (a b : Np.ndarray) :
  length a <> length b -> Np.dot f a b = Raise (ValueError "shapes not aligned").
Proof.
  intros Hne. unfold Np.dot.
  destruct (Nat.eqb_spec (length a) (length b)); [contradiction | reflexivity].
Qed.

Lemma dot_aligned f (a b : Np.ndarray) :
  length a = length b -> Np.dot f a b = OK (Np.sum_products f a b).
Proof. intros Heq. unfold Np.dot. rewrite Heq, Nat.eqb_refl. reflexivity. Qed.

Lemma normalize_length (v : Np.ndarray) : length (normalize v) = length v.
Proof. unfold normalize, Np.divide. apply length_map. Qed.

Lemma normalize_components (v : Np.ndarray) :
  normalize v = map (fun c => div binary64 c (Np.linalg_norm binary64 v)) v.
Proof. reflexivity. Qed.

Lemma normalize_zero_norm (v : Np.ndarray) :
  is_zero (Np.linalg_norm binary64 v) = true ->
  List.Forall (fun c => nan_or_inf c = true) (normalize v).
Proof.
  intros Hz. rewrite normalize_components.
  apply List.Forall_forall. intros c Hc. apply List.in_map_iff in Hc as (x & <- & _).
  destruct (Np.linalg_norm binary64 v); try discriminate. apply div_zero_nan_or_inf.
Qed.

Lemma fold_dot_absorbs f (l : list (float * float)) (acc : float) :
  nan_or_inf acc = true ->
  nan_or_inf (fold_left (fun acc xy => add f acc (mul f (fst xy) (snd xy))) l acc) = true.
Proof.
  revert acc. induction l as [|xy l IH]; intros acc Hacc; simpl; [exact Hacc|].
  apply IH. apply add_nan_or_inf_l. exact Hacc.
Qed.

Lemma dot_first_nan_or_inf f (x y : float) (a b : Np.ndarray) :
  length a = length b ->
  nan_or_inf x = true \/ nan_or_inf y = true ->
  exists s, Np.dot f (x :: a) (y :: b) = OK s /\ nan_or_inf s = true.
Proof.
  intros Hlen Hxy. rewrite dot_aligned by (simpl; congruence).
  eexists. split; [reflexivity|]. unfold Np.sum_products.
  cbn [combine fold_left fst snd].
  apply fold_dot_absorbs. apply add_nan_or_inf_r.
  destruct Hxy; [apply mul_nan_or_inf_l | apply mul_nan_or_inf_r]; assumption.
Qed.

(** C6, as the code has it: on vectors of differing length no similarity
    is computed; numpy's [ValueError] reaches the caller of the method of
    clip_server.py unchanged, and the handlers of both files turn it, as
    they turn every exception, into status 500, which is not a client
    error. *)
Theorem calculate_similarity_mismatch (e1 e2 : list float) :
  length e1 <> length e2 ->
  let shape_error := ValueError "shapes not aligned" in
  ClipServer.calculate_similarity e1 e2 = Raise shape_error
  /\ ProductionServer.calculate_similarity
       {| ProductionServer.embedding1 := e1; ProductionServer.embedding2 := e2 |}
     = Raise (HTTPException 500 (Str shape_error))
  /\ is_client_error (HTTPException 500 (Str shape_error)) = false
  /\ (e1 <> [] -> e2 <> [] ->
      ClipServer.similarity_route (Some e1) (Some e2) = ClipServer.JsonError (Str shape_error) 500).
Proof.
  intros Hne shape_error.
  assert (Hdot : Np.dot binary64 (normalize e1) (normalize e2) = Raise shape_error).
  { apply dot_mismatch. rewrite !normalize_length. exact Hne. }
  repeat split.
  - exact Hdot.
  - unfold ProductionServer.calculate_similarity. cbv zeta.
    cbn [ProductionServer.embedding1 ProductionServer.embedding2].
    rewrite Hdot. reflexivity.
  - intros H1 H2. destruct e1 as [|x1 e1], e2 as [|x2 e2]; try contradiction.
    unfold ClipServer.similarity_route, ClipServer.calculate_similarity.
    cbv zeta. rewrite Hdot. reflexivity.
Qed.

Lemma calculate_similarity_mismatch_witness :
  ClipServer.calculate_similarity [f64 1] [f64 1; f64 0]
    = Raise (ValueError "shapes not aligned")
  /\ ProductionServer.calculate_similarity
       {| ProductionServer.embedding1 := [f64 1];
          ProductionServer.embedding2 := [f64 1; f64 0] |}
     = Raise (HTTPException 500 (Str (ValueError "shapes not aligned"))).
Proof.
  destruct (calculate_similarity_mismatch [f64 1] [f64 1; f64 0]) as (H1 & H2 & _).
  - simpl. lia.
  - split; [exact H1 | exact H2].
Defined.

(** C6 as stated fails: the mismatch of [[1.0]] and [[1.0, 0.0]] is
    reported with status 500, not as a client-side failure. *)
Lemma calculate_similarity_mismatch_not_client_error :
  length [f64 1] <> length [f64 1; f64 0]
  /\ ProductionServer.calculate_similarity
       {| ProductionServer.embedding1 := [f64 1];
          ProductionServer.embedding2 := [f64 1; f64 0] |}
     = Raise (HTTPException 500 (Str (ValueError "shapes not aligned")))
  /\ ~ (exists e,
          ProductionServer.calculate_similarity
            {| ProductionServer.embedding1 := [f64 1];
               ProductionServer.embedding2 := [f64 1; f64 0] |} = Raise e
          /\ is_client_error e = true).
Proof.
  split; [simpl; lia|]. split; [reflexivity|].
  intros (e & He & Hc). vm_compute in He. inversion He; subst e. discriminate Hc.
Qed.

(** C7, as the code has it: normalisation never fails.  Every component
    is divided by the Euclidean norm, whatever the norm is; when the norm
    is zero every quotient is NaN or an infinity, and the similarity of a
    non-empty such vector with a vector of its length is returned, by
    both files, as NaN or an infinity. *)
Theorem normalize_never_fails (v : list float) :
  normalize v = map (fun c => div binary64 c (Np.linalg_norm binary64 v)) v
  /\ (is_zero (Np.linalg_norm binary64 v) = true ->
      List.Forall (fun c => nan_or_inf c = true) (normalize v)
      /\ forall b, v <> [] -> length v = length b ->
           exists s, nan_or_inf s = true
             /\ ClipServer.calculate_similarity v b = OK s
             /\ ProductionServer.calculate_similarity
                  {| ProductionServer.embedding1 := v; ProductionServer.embedding2 := b |}
                = OK s).
Proof.
  split; [apply normalize_components|].
  intros Hz. pose proof (normalize_zero_norm v Hz) as Hall.
  split; [exact Hall|].
  intros b Hv Hlen.
  assert (Hdot : exists s, Np.dot binary64 (normalize v) (normalize b) = OK s
                           /\ nan_or_inf s = true).
  { destruct v as [|x v]; [contradiction|]. destruct b as [|y b]; [discriminate|].
    rewrite (normalize_components (x :: v)), (normalize_components (y :: b)) in *.
    cbn [map] in *. apply dot_first_nan_or_inf.
    - rewrite !length_map. simpl in Hlen. congruence.
    - left. inversion Hall; assumption. }
  destruct Hdot as (s & Hs & Hnan). exists s. split; [exact Hnan|]. split.
  - exact Hs.
  - unfold ProductionServer.calculate_similarity. cbv zeta.
    cbn [ProductionServer.embedding1 ProductionServer.embedding2].
    rewrite Hs. reflexivity.
Qed.

Lemma normalize_never_fails_witness :
  is_zero (Np.linalg_norm binary64 [f64 0; f64 0]) = true
  /\ normalize [f64 0; f64 0] = [nan; nan]
  /\ ClipServer.calculate_similarity [f64 0; f64 0] [f64 1; f64 0] = OK nan.
Proof.
  destruct (normalize_never_fails [f64 0; f64 0]) as (Hmap & Hzero).
  destruct (Hzero eq_refl) as (_ & Hsim).
  destruct (Hsim [f64 1; f64 0]) as (s & _ & Hs & _); [discriminate | reflexivity |].
  split; [reflexivity|]. split; [rewrite Hmap; reflexivity|].
  rewrite Hs. f_equal. vm_compute in Hs. inversion Hs. reflexivity.
Defined.

(** C7 as stated fails: the zero vector [[0.0, 0.0]] is normalised
    without any error, and its similarity with [[1.0, 0.0]] comes back as
    NaN. *)
Lemma zero_vector_similarity_is_nan :
  is_zero (Np.linalg_norm binary64 [f64 0; f64 0]) = true
  /\ ProductionServer.calculate_similarity
       {| ProductionServer.embedding1 := [f64 0; f64 0];
          ProductionServer.embedding2 := [f64 1; f64 0] |} = OK nan
  /\ ~ (exists e,
          ProductionServer.calculate_similarity
            {| ProductionServer.embedding1 := [f64 0; f64 0];
               ProductionServer.embedding2 := [f64 1; f64 0] |} = Raise e).
Proof.
  split; [reflexivity|]. split; [reflexivity|].
  intros (e & He). vm_compute in He. discriminate He.
Qed.

End SimilarityFacts.

(** ** Ranking *)

Section RankingFacts.
Import Float FloatFacts.

Lemma insert_desc_perm {A} (key : A -> float) (x : A) (l : list A) :
  Permutation (insert_desc key x l) (x :: l).
Proof.
  induction l as [|y l IH]; simpl; [reflexivity|].
  destruct (ltb (key x) (key y)); [|reflexivity].
  rewrite IH. apply perm_swap.
Qed.

Lemma sort_desc_perm {A} (key : A -> float) (l : list A) :
  Permutation (sort_desc key l) l.
Proof.
  induction l as [|x l IH]; simpl; [reflexivity|].
  rewrite insert_desc_perm. apply perm_skip. exact IH.
Qed.

(** Inserting an item that came before all of [l] into the ranked [l]. *)
Lemma insert_desc_ranked (x : SimilarityResult) (l : list SimilarityResult) :
  numeric x -> List.Forall numeric l ->
  List.Forall (fun y => (index x < index y)%nat) l ->
  StronglySorted rank_before l ->
  StronglySorted rank_before (insert_desc similarity x l).
Proof.
  intros Hx. induction l as [|y l IH]; intros Hnum Hidx Hsorted; simpl.
  - constructor; constructor.
  - inversion Hnum as [|? ? Hy Hnum']; subst.
    inversion Hidx as [|? ? Hxy Hidx']; subst.
    apply StronglySorted_inv in Hsorted as [Hsorted Hyl].
    destruct (ltb (similarity x) (similarity y)) eqn:Hlt.
    + constructor; [apply IH; assumption|].
      apply List.Forall_forall. intros z Hz.
      apply (Permutation_in _ (insert_desc_perm similarity x l)) in Hz.
      destruct Hz as [<- | Hz].
      * split; [apply ltb_true_geb; exact Hlt|].
        intros Heq. rewrite (ltb_true_not_eqb _ _ Hlt) in Heq. discriminate.
      * revert z Hz. apply List.Forall_forall. exact Hyl.
    + constructor; [constructor; assumption|].
      assert (Hge : geb (similarity x) (similarity y) = true)
        by (apply ltb_false_geb; assumption).
      constructor; [split; [exact Hge | intros _; exact Hxy]|].
      apply List.Forall_forall. intros z Hz. split.
      * apply geb_trans with (similarity y); [exact Hge|].
        apply (proj1 (List.Forall_forall _ _) Hyl z Hz).
      * intros _. apply (proj1 (List.Forall_forall _ _) Hidx' z Hz).
Qed.

Lemma sort_desc_ranked (l : list SimilarityResult) :
  List.Forall numeric l ->
  StronglySorted (fun x y => (index x < index y)%nat) l ->
  StronglySorted rank_before (sort_desc similarity l).
Proof.
  induction l as [|x l IH]; intros Hnum Hidx; simpl; [constructor|].
  inversion Hnum; subst. apply StronglySorted_inv in Hidx as [Hidx Hxl].
  apply insert_desc_ranked; auto.
  - apply (Permutation_Forall (Permutation_sym (sort_desc_perm similarity l))). assumption.
  - apply (Permutation_Forall (Permutation_sym (sort_desc_perm similarity l))). assumption.
Qed.

Lemma rank_before_asym (x y : SimilarityResult) :
  rank_before x y -> rank_before y x -> False.
Proof.
  intros [Hxy Hix] [Hyx Hiy].
  pose proof (geb_antisym _ _ Hxy Hyx) as Heq.
  pose proof (geb_antisym _ _ Hyx Hxy) as Heq'.
  specialize (Hix Heq). specialize (Hiy Heq'). lia.
Qed.

(** The ranking of a list is unique: whatever stable sort produces it. *)
Lemma ranking_unique (l1 l2 : list SimilarityResult) :
  Permutation l1 l2 ->
  StronglySorted rank_before l1 -> StronglySorted rank_before l2 -> l1 = l2.
Proof.
  revert l2. induction l1 as [|h1 t1 IH]; intros l2 Hperm H1 H2.
  - apply Permutation_nil in Hperm. congruence.
  - destruct l2 as [|h2 t2].
    { apply Permutation_sym, Permutation_nil in Hperm. discriminate. }
    apply StronglySorted_inv in H1 as [H1 Hh1].
    apply StronglySorted_inv in H2 as [H2 Hh2].
    assert (Hhead : h1 = h2).
    { assert (Hin1 : In h1 (h2 :: t2))
        by (apply (Permutation_in _ Hperm); left; reflexivity).
      assert (Hin2 : In h2 (h1 :: t1))
        by (apply (Permutation_in _ (Permutation_sym Hperm)); left; reflexivity).
      destruct Hin1 as [Heq | Hin1]; [congruence|].
      destruct Hin2 as [Heq | Hin2]; [congruence|].
      exfalso. apply (rank_before_asym h1 h2).
      - apply (proj1 (List.Forall_forall _ _) Hh1 h2 Hin2).
      - apply (proj1 (List.Forall_forall _ _) Hh2 h1 Hin1). }
    subst h2. f_equal. apply IH; try assumption.
    apply (Permutation_cons_inv Hperm).
Qed.

Lemma combine_seq_snd {A} (P : A -> Prop) (l : list A) (start : nat) :
  List.Forall P l ->
  List.Forall (fun ic => P (snd ic)) (combine (seq start (length l)) l).
Proof.
  intros Hl. revert start. induction Hl as [|x l Hx Hl IH]; intros start; simpl;
    constructor; auto.
Qed.

Lemma combine_seq_fst {A} (l : list A) (start i : nat) (c : A) :
  In (i, c) (combine (seq start (length l)) l) -> (start <= i)%nat.
Proof.
  intros Hin. apply in_combine_l in Hin. apply in_seq in Hin. lia.
Qed.

Lemma scored_by_index (query : list float) (candidates : list (list float)) :
  StronglySorted (fun x y => (index x < index y)%nat) (scored query candidates).
Proof.
  unfold scored, enumerate. generalize 0%nat as start.
  induction candidates as [|c cs IH]; intros start; simpl; constructor.
  - apply IH.
  - apply List.Forall_forall. intros y Hy.
    apply List.in_map_iff in Hy as ([i c'] & <- & Hin).
    apply combine_seq_fst in Hin. simpl. lia.
Qed.

Lemma scored_numeric (query : list float) (candidates : list (list float)) :
  List.Forall (fun c => is_nan (cosine query c) = false) candidates ->
  List.Forall numeric (scored query candidates).
Proof.
  intros Hnum. unfold scored, enumerate.
  apply List.Forall_map.
  apply (combine_seq_snd (fun c => is_nan (cosine query c) = false)). exact Hnum.
Qed.

Lemma scored_length (query : list float) (candidates : list (list float)) :
  length (scored query candidates) = length candidates.
Proof.
  unfold scored, enumerate.
  rewrite length_map, length_combine, length_seq. lia.
Qed.

Lemma similarities_loop_scored (query : list float)
    (cands : list (nat * list float)) (acc : list SimilarityResult) :
  List.Forall (fun ic => length (snd ic) = length query) cands ->
  similarities_loop (normalize query) cands acc =
    OK (acc ++ map (fun ic => {| index := fst ic; similarity := cosine query (snd ic) |})
                   cands).
Proof.
  intros Hdim. revert acc.
  induction Hdim as [|[i c] cands Hc Hdim IH]; intros acc; simpl.
  - rewrite app_nil_r. reflexivity.
  - rewrite dot_aligned by (rewrite !normalize_length; simpl in Hc; congruence).
    simpl. rewrite IH, <- app_assoc. reflexivity.
Qed.

Lemma search_loop_scored (query : list float) (candidates : list (list float)) :
  List.Forall (fun c => length c = length query) candidates ->
  similarities_loop (normalize query) (enumerate candidates) [] =
    OK (scored query candidates).
Proof.
  intros Hdim. rewrite similarities_loop_scored; [reflexivity|].
  apply (combine_seq_snd (fun c => length c = length query)). exact Hdim.
Qed.

(** Outside 1..100 nothing is clamped: the request model of
    production_server.py rejects the body, and clip_server.py hands
    [top_k] to the slice as it is. *)
Lemma post_search_rejects (query : list float) (candidates : list (list float)) (k : Z) :
  k < 1 \/ 100 < k ->
  ProductionServer.post_search
    {| ProductionServer.query_embedding := query;
       ProductionServer.candidate_embeddings := candidates;
       ProductionServer.top_k := k |} = Raise (RequestValidationError "top_k").
Proof.
  intros Hk. unfold ProductionServer.post_search, ProductionServer.SearchRequest_validate.
  cbn [ProductionServer.top_k].
  destruct (1 <=? k) eqn:H1, (k <=? 100) eqn:H2; simpl; try reflexivity. lia.
Qed.

Lemma find_most_similar_slices (query : list float) (candidates : list (list float)) (k : Z) :
  List.Forall (fun c => length c = length query) candidates ->
  ClipServer.find_most_similar query candidates k =
    OK (slice_to (sort_desc similarity (scored query candidates)) k).
Proof.
  intros Hdim. unfold ClipServer.find_most_similar. cbv zeta.
  rewrite search_loop_scored by exact Hdim. reflexivity.
Qed.

(** C2, as the code has it: for [k] within 1..100, candidates of the
    query's length and similarities that are numbers, both files return
    the first [min(k, len(candidates))] items of the candidates' cosine
    similarities ranked by descending score, ties by ascending candidate
    index; there is one such ranking.  [k] is never clamped. *)
Theorem rank_top_k (query : list float) (candidates : list (list float)) (k : Z) :
  List.Forall (fun c => length c = length query) candidates ->
  List.Forall (fun c => is_nan (cosine query c) = false) candidates ->
  1 <= k <= 100 ->
  exists ranked,
    Permutation ranked (scored query candidates)
    /\ StronglySorted rank_before ranked
    /\ (forall ranked', Permutation ranked' (scored query candidates) ->
                        StronglySorted rank_before ranked' -> ranked' = ranked)
    /\ ClipServer.find_most_similar query candidates k = OK (firstn (Z.to_nat k) ranked)
    /\ ProductionServer.post_search
         {| ProductionServer.query_embedding := query;
            ProductionServer.candidate_embeddings := candidates;
            ProductionServer.top_k := k |} = OK (firstn (Z.to_nat k) ranked)
    /\ length (firstn (Z.to_nat k) ranked) = Nat.min (Z.to_nat k) (length candidates).
Proof.
  intros Hdim Hnum Hk.
  exists (sort_desc similarity (scored query candidates)).
  assert (Hslice : forall l : list SimilarityResult, slice_to l k = firstn (Z.to_nat k) l).
  { intros l. unfold slice_to. destruct (0 <=? k) eqn:H0; [reflexivity | lia]. }
  assert (Hranked : StronglySorted rank_before (sort_desc similarity (scored query candidates))).
  { apply sort_desc_ranked; [apply scored_numeric; exact Hnum | apply scored_by_index]. }
  split; [apply sort_desc_perm|]. split; [exact Hranked|]. split.
  { intros ranked' Hperm Hsorted. apply ranking_unique; try assumption.
    rewrite Hperm. symmetry. apply sort_desc_perm. }
  split; [rewrite find_most_similar_slices, Hslice by exact Hdim; reflexivity|]. split.
  - unfold ProductionServer.post_search, ProductionServer.SearchRequest_validate.
    cbn [ProductionServer.top_k].
    replace ((1 <=? k) && (k <=? 100)) with true
      by (symmetry; apply andb_true_iff; split; lia).
    cbn [rbind]. unfold ProductionServer.search_similar. cbv zeta.
    cbn [ProductionServer.query_embedding ProductionServer.candidate_embeddings
         ProductionServer.top_k].
    rewrite search_loop_scored by exact Hdim. cbn [rbind rtry].
    rewrite Hslice. reflexivity.
  - rewrite length_firstn, (Permutation_length (sort_desc_perm similarity _)), scored_length.
    reflexivity.
Qed.

Lemma rank_top_k_witness :
  exists ranked,
    Permutation ranked (scored [f64 1; f64 0] [[f64 1; f64 0]; [f64 0; f64 1]; [f64 (-1); f64 0]])
    /\ StronglySorted rank_before ranked
    /\ ClipServer.find_most_similar [f64 1; f64 0]
         [[f64 1; f64 0]; [f64 0; f64 1]; [f64 (-1); f64 0]] 2
       = OK (firstn 2 ranked)
    /\ firstn 2 ranked = [ {| index := 0; similarity := f64 1 |};
                            {| index := 1; similarity := f64 0 |} ].
Proof.
  destruct (rank_top_k [f64 1; f64 0]
              [[f64 1; f64 0]; [f64 0; f64 1]; [f64 (-1); f64 0]] 2)
    as (ranked & Hperm & Hsorted & _ & Hclip & _).
  - repeat constructor.
  - repeat constructor.
  - lia.
  - exists ranked. split; [exact Hperm|]. split; [exact Hsorted|].
    split; [exact Hclip|].
    assert (Heval : ClipServer.find_most_similar [f64 1; f64 0]
                      [[f64 1; f64 0]; [f64 0; f64 1]; [f64 (-1); f64 0]] 2
                    = OK [ {| index := 0; similarity := f64 1 |};
                           {| index := 1; similarity := f64 0 |} ])
      by reflexivity.
    rewrite Heval in Hclip. injection Hclip as Heq. symmetry. exact Heq.
Defined.

(** C2 as stated fails: [top_k = 0] is not clamped to 1.  clip_server.py
    returns no result where the clamp would give one, and the request
    model of production_server.py rejects the body. *)
Lemma top_k_zero_not_clamped :
  ClipServer.find_most_similar [f64 1; f64 0] [[f64 1; f64 0]] 0 = OK []
  /\ length (@nil SimilarityResult)
       <> Nat.min (Z.to_nat (clamp_top_k 0)) (length [[f64 1; f64 0]])
  /\ ProductionServer.post_search
       {| ProductionServer.query_embedding := [f64 1; f64 0];
          ProductionServer.candidate_embeddings := [[f64 1; f64 0]];
          ProductionServer.top_k := 0 |} = Raise (RequestValidationError "top_k").
Proof.
  split; [reflexivity|]. split; [vm_compute; lia | reflexivity].
Qed.

End RankingFacts.

(** ** The wire format *)

Module WireFacts.
Import Float Wire.

Lemma digits2_pos_bounds (m : positive) :
  2 ^ (Z.pos (digits2_pos m) - 1) <= Z.pos m < 2 ^ Z.pos (digits2_pos m).
Proof.
  induction m as [m IH|m IH|]; cbn [digits2_pos].
  - rewrite Pos2Z.inj_succ.
    replace (Z.succ (Z.pos (digits2_pos m)) - 1)
      with (Z.succ (Z.pos (digits2_pos m) - 1)) by lia.
    rewrite !Z.pow_succ_r by lia. lia.
  - rewrite Pos2Z.inj_succ.
    replace (Z.succ (Z.pos (digits2_pos m)) - 1)
      with (Z.succ (Z.pos (digits2_pos m) - 1)) by lia.
    rewrite !Z.pow_succ_r by lia. lia.
  - simpl. lia.
Qed.

(** A valid binary32 number is subnormal, with the least exponent, or
    normal, with a 24-bit mantissa. *)
Lemma valid32_cases s m e :
  valid binary32 (S754_finite s m e) = true ->
  (Z.pos m < 2 ^ 23 /\ e = -149) \/ (2 ^ 23 <= Z.pos m < 2 ^ 24 /\ -149 <= e <= 104).
Proof.
  unfold valid, valid_binary, bounded, canonical_mantissa, fexp, emin. cbn [prec emax binary32].
  intros Hb. apply andb_true_iff in Hb as [Hc He].
  apply Z.eqb_eq in Hc. apply Z.leb_le in He.
  pose proof (digits2_pos_bounds m) as Hd.
  set (d := Z.pos (digits2_pos m)) in *.
  assert (Hdpos : 0 < d) by (unfold d; lia).
  destruct (Z.max_spec (d + e - 24) (3 - 128 - 24)) as [[Hlt Hmax]|[Hge Hmax]];
    rewrite Hmax in Hc.
  - assert (d <= 24) by lia.
    destruct (Z.eq_dec d 24) as [Hd24|Hne].
    + right. rewrite Hd24 in Hd. simpl in Hd. lia.
    + left. split; [|lia].
      assert (Hle : 2 ^ d <= 2 ^ 23) by (apply Z.pow_le_mono_r; lia). lia.
  - right. assert (Hd24 : d = 24) by lia. rewrite Hd24 in Hd. simpl in Hd. lia.
Qed.

Ltac pow_constants :=
  change (2 ^ 31) with 2147483648 in *; change (2 ^ 23) with 8388608 in *;
  change (2 ^ 24) with 16777216 in *; change (2 ^ 32) with 4294967296 in *.

Lemma b32_round_trip x :
  valid binary32 x = true -> b32_of_bits (bits_of_b32 x) = x.
Proof.
  destruct x as [s|s| |s m e]; intros Hv.
  - destruct s; reflexivity.
  - destruct s; reflexivity.
  - reflexivity.
  - apply valid32_cases in Hv. unfold bits_of_b32.
    destruct Hv as [[Hm He]|[Hm He]].
    + apply Z.ltb_lt in Hm as Hm'. rewrite Hm'. subst e.
      unfold b32_of_bits, sign_bit. pow_constants.
      destruct s.
      * replace ((2147483648 + Z.pos m) / 8388608) with 256
          by (apply Z.div_unique with (r := Z.pos m); lia).
        replace ((2147483648 + Z.pos m) mod 8388608) with (Z.pos m)
          by (apply Z.mod_unique with (q := 256); lia).
        simpl (256 mod 256 =? 0). cbv iota.
        destruct (Z.eqb_spec (Z.pos m) 0); [lia|].
        replace (2147483648 <=? 2147483648 + Z.pos m) with true
          by (symmetry; apply Z.leb_le; lia).
        reflexivity.
      * replace ((0 + Z.pos m) / 8388608) with 0
          by (apply Z.div_unique with (r := Z.pos m); lia).
        replace ((0 + Z.pos m) mod 8388608) with (Z.pos m)
          by (apply Z.mod_unique with (q := 0); lia).
        simpl (0 mod 256 =? 0). cbv iota.
        destruct (Z.eqb_spec (Z.pos m) 0); [lia|].
        replace (2147483648 <=? 0 + Z.pos m) with false
          by (symmetry; apply Z.leb_gt; lia).
        reflexivity.
    + assert (Hm' : (Z.pos m <? 2 ^ 23) = false) by (apply Z.ltb_ge; lia). rewrite Hm'.
      unfold b32_of_bits, sign_bit. pow_constants.
      set (E := e + 150) in *. assert (HE : 1 <= E <= 254) by (unfold E; lia).
      set (F := Z.pos m - 8388608) in *.
      assert (HF : 0 <= F < 8388608) by (unfold F; lia).
      destruct s.
      * replace ((2147483648 + E * 8388608 + F) / 8388608) with (256 + E)
          by (apply Z.div_unique with (r := F); lia).
        replace ((2147483648 + E * 8388608 + F) mod 8388608) with F
          by (apply Z.mod_unique with (q := 256 + E); lia).
        replace ((256 + E) mod 256) with E by (apply Z.mod_unique with (q := 1); lia).
        destruct (Z.eqb_spec E 0); [lia|]. destruct (Z.eqb_spec E 255); [lia|].
        replace (2147483648 <=? 2147483648 + E * 8388608 + F) with true
          by (symmetry; apply Z.leb_le; lia).
        f_equal; unfold F, E; lia.
      * replace ((0 + E * 8388608 + F) / 8388608) with E
          by (apply Z.div_unique with (r := F); lia).
        replace ((0 + E * 8388608 + F) mod 8388608) with F
          by (apply Z.mod_unique with (q := E); lia).
        replace (E mod 256) with E by (apply Z.mod_unique with (q := 0); lia).
        destruct (Z.eqb_spec E 0); [lia|]. destruct (Z.eqb_spec E 255); [lia|].
        replace (2147483648 <=? 0 + E * 8388608 + F) with false
          by (symmetry; apply Z.leb_gt; lia).
        f_equal; unfold F, E; lia.
Qed.

Lemma bits_of_b32_range x :
  valid binary32 x = true -> 0 <= bits_of_b32 x < 2 ^ 32.
Proof.
  destruct x as [s|s| |s m e]; intros Hv; unfold bits_of_b32, sign_bit.
  - destruct s; simpl; lia.
  - destruct s; simpl; lia.
  - simpl; lia.
  - apply valid32_cases in Hv. pow_constants.
    destruct Hv as [[Hm He]|[Hm He]].
    + pose proof Hm as Hm'. apply Z.ltb_lt in Hm' as ->. destruct s; lia.
    + replace (Z.pos m <? 8388608) with false by (symmetry; apply Z.ltb_ge; lia).
      destruct s; lia.
Qed.

(** Converting to float32 what already is a float32 changes nothing. *)
Lemma convert32_valid x : valid binary32 x = true -> convert binary32 x = x.
Proof.
  destruct x as [s|s| |s m e]; try reflexivity.
  unfold valid, valid_binary, bounded, canonical_mantissa, convert. intros Hb.
  apply andb_true_iff in Hb as [Hc He]. apply Z.eqb_eq in Hc.
  unfold binary_round. rewrite Hc. unfold shl_align. rewrite Z.sub_diag.
  unfold binary_round_aux, shr_fexp. cbn [Zdigits2 shr_record_of_loc].
  rewrite Hc, Z.sub_diag. cbn [shr shr_m loc_of_shr_record round_nearest_even Zdigits2].
  rewrite Hc, Z.sub_diag. cbn [shr shr_m]. rewrite He. reflexivity.
Qed.

Lemma astype_float32_valid (a : Np.ndarray) :
  List.Forall (fun x => valid binary32 x = true) a -> astype_float32 a = a.
Proof.
  intros Ha. unfold astype_float32.
  induction Ha as [|x a Hx Ha IH]; simpl; [reflexivity|].
  rewrite (convert32_valid x Hx), IH. reflexivity.
Qed.

Lemma Z_of_byte_of_Z z : Z_of_byte (byte_of_Z z) = z mod 256.
Proof.
  unfold Z_of_byte, byte_of_Z.
  pose proof (Z.mod_pos_bound z 256 ltac:(lia)) as Hb.
  destruct (Byte.of_N (Z.to_N (z mod 256))) as [b|] eqn:Hof.
  - apply Byte.to_of_N in Hof. rewrite Hof. apply Z2N.id. lia.
  - apply Byte.of_N_None_iff in Hof. lia.
Qed.

Lemma le_word_le_bytes w :
  0 <= w < 2 ^ 32 ->
  le_word (byte_of_Z w) (byte_of_Z (w / 2 ^ 8)) (byte_of_Z (w / 2 ^ 16))
          (byte_of_Z (w / 2 ^ 24)) = w.
Proof.
  intros Hw. unfold le_word. rewrite !Z_of_byte_of_Z.
  change (2 ^ 8) with 256. change (2 ^ 16) with 65536.
  change (2 ^ 24) with 16777216. change (2 ^ 32) with 4294967296 in Hw.
  Z.div_mod_to_equations. lia.
Qed.



(** What [tobytes] wrote, [frombuffer] reads back. *)
Lemma frombuffer_tobytes (a : Np.ndarray) :
  List.Forall (fun x => valid binary32 x = true) a ->
  frombuffer (tobytes a) = OK a.
Proof.
  intros Ha. induction Ha as [|x a Hx Ha IH]; [reflexivity|].
  unfold tobytes in *. cbn [flat_map le_bytes app frombuffer].
  rewrite IH. rewrite le_word_le_bytes by (apply bits_of_b32_range; exact Hx).
  rewrite b32_round_trip by exact Hx. reflexivity.
Qed.

End WireFacts.

(** ** The two-tier cache *)

Section CacheFacts.
Context `{DurableStore} `{Clock}.
Import Float Wire WireFacts.

Lemma Qltb_lt (x y : Q) : Qltb x y = true <-> (x < y)%Q.
Proof.
  unfold Qltb. rewrite negb_true_iff. split.
  - intros Hb. apply Qnot_le_lt. intros Hle. apply Qle_bool_iff in Hle. congruence.
  - intros Hlt. destruct (Qle_bool y x) eqn:Hb; [|reflexivity].
    apply Qle_bool_iff in Hb. exfalso. exact (Qlt_not_le _ _ Hlt Hb).
Qed.

Lemma Qltb_ge (x y : Q) : Qltb x y = false <-> (y <= x)%Q.
Proof.
  unfold Qltb. rewrite negb_false_iff. apply Qle_bool_iff.
Qed.

Ltac run_monad :=
  unfold bind, try_except, get_world, ret, raise, lift, modify,
    hits_inc, misses_inc, time_time, redis_client_get, redis_client_setex.

(** *** [_get_from_cache], case by case *)

Lemma get_disabled (key : string) (w : World) :
  cache_enabled w = false -> _get_from_cache key w = (OK None, w).
Proof. intros Hen. unfold _get_from_cache. run_monad. rewrite Hen. reflexivity. Qed.

Lemma get_no_client (key : string) (w : World) :
  cache_enabled w = true -> redis_client w = None ->
  _get_from_cache key w = fast_tier_get key w.
Proof.
  intros Hen Hcl. unfold _get_from_cache, fast_tier_get. run_monad.
  rewrite Hen, Hcl. simpl.
  destruct (memory_cache w !! key) as [[data ts]|]; [|reflexivity].
  destruct (Qltb _ _); reflexivity.
Qed.

Lemma get_durable_raises (key : string) (w : World) (r r' : Redis) (e : exn) :
  cache_enabled w = true -> redis_client w = Some r ->
  redis_get r key = (Raise e, r') ->
  _get_from_cache key w = (OK None, count_miss (set_redis_client (Some r') w)).
Proof.
  intros Hen Hcl Hget. unfold _get_from_cache. run_monad.
  rewrite Hen, Hcl. simpl. rewrite Hget. reflexivity.
Qed.

Lemma get_durable_hit (key : string) (w : World) (r r' : Redis)
    (payload : bytes) (a : Np.ndarray) :
  cache_enabled w = true -> redis_client w = Some r ->
  redis_get r key = (OK (Some payload), r') -> payload <> [] ->
  frombuffer payload = OK a ->
  _get_from_cache key w = (OK (Some a), count_hit (set_redis_client (Some r') w)).
Proof.
  intros Hen Hcl Hget Hne Hbuf. unfold _get_from_cache. run_monad.
  rewrite Hen, Hcl. cbn -[frombuffer]. rewrite Hget.
  destruct payload as [|b bs]; [contradiction|]. cbn -[frombuffer].
  rewrite Hbuf. reflexivity.
Qed.

Lemma get_durable_garbled (key : string) (w : World) (r r' : Redis)
    (payload : bytes) (e : exn) :
  cache_enabled w = true -> redis_client w = Some r ->
  redis_get r key = (OK (Some payload), r') -> payload <> [] ->
  frombuffer payload = Raise e ->
  _get_from_cache key w =
    (OK None, count_miss (count_hit (set_redis_client (Some r') w))).
Proof.
  intros Hen Hcl Hget Hne Hbuf. unfold _get_from_cache. run_monad.
  rewrite Hen, Hcl. cbn -[frombuffer]. rewrite Hget.
  destruct payload as [|b bs]; [contradiction|]. cbn -[frombuffer].
  rewrite Hbuf. reflexivity.
Qed.

Lemma get_durable_miss (key : string) (w : World) (r r' : Redis)
    (answer : option bytes) :
  cache_enabled w = true -> redis_client w = Some r ->
  redis_get r key = (OK answer, r') -> answer = None \/ answer = Some [] ->
  _get_from_cache key w = fast_tier_get key (set_redis_client (Some r') w).
Proof.
  intros Hen Hcl Hget Hans. unfold _get_from_cache, fast_tier_get. run_monad.
  rewrite Hen, Hcl. simpl. rewrite Hget.
  destruct Hans as [-> | ->]; simpl;
    (destruct (memory_cache w !! key) as [[data ts]|]; [|reflexivity]);
    destruct (Qltb _ _); reflexivity.
Qed.

(** *** [_store_in_cache], case by case *)

Lemma store_disabled (key : string) (v : Np.ndarray) (w : World) :
  cache_enabled w = false -> _store_in_cache key v w = (OK tt, w).
Proof. intros Hen. unfold _store_in_cache. run_monad. rewrite Hen. reflexivity. Qed.

Lemma store_no_client (key : string) (v : Np.ndarray) (w : World) :
  cache_enabled w = true -> redis_client w = None ->
  _store_in_cache key v w = (OK tt, fast_tier_put key v w).
Proof.
  intros Hen Hcl. unfold _store_in_cache, fast_tier_put. run_monad.
  rewrite Hen, Hcl. simpl. destruct (_ <? _); reflexivity.
Qed.

Lemma store_durable_ok (key : string) (v : Np.ndarray) (w : World) (r r' : Redis) :
  cache_enabled w = true -> redis_client w = Some r ->
  redis_setex r key (cache_ttl w) (tobytes (astype_float32 v)) = (OK tt, r') ->
  _store_in_cache key v w = (OK tt, fast_tier_put key v (set_redis_client (Some r') w)).
Proof.
  intros Hen Hcl Hset. unfold _store_in_cache, fast_tier_put. run_monad.
  rewrite Hen, Hcl. simpl. rewrite Hset. simpl. destruct (_ <? _); reflexivity.
Qed.

Lemma store_durable_raises (key : string) (v : Np.ndarray) (w : World)
    (r r' : Redis) (e : exn) :
  cache_enabled w = true -> redis_client w = Some r ->
  redis_setex r key (cache_ttl w) (tobytes (astype_float32 v)) = (Raise e, r') ->
  _store_in_cache key v w = (OK tt, set_redis_client (Some r') w).
Proof.
  intros Hen Hcl Hset. unfold _store_in_cache. run_monad.
  rewrite Hen, Hcl. simpl. rewrite Hset. reflexivity.
Qed.

(** *** Outcomes, whatever the store does *)

Lemma fast_tier_get_outcome (key : string) (w : World) :
  exists answer w', fast_tier_get key w = (OK answer, w')
    /\ cache_enabled w' = cache_enabled w
    /\ max_memory_cache_size w' = max_memory_cache_size w
    /\ (memory_cache w' = memory_cache w \/ memory_cache w' = delete key (memory_cache w)).
Proof.
  unfold fast_tier_get.
  destruct (memory_cache w !! key) as [[data ts]|].
  - destruct (Qltb _ _); eexists _, _; (split; [reflexivity|]); auto.
  - eexists _, _. split; [reflexivity|]. auto.
Qed.

Lemma get_outcome (key : string) (w : World) :
  exists answer w', _get_from_cache key w = (OK answer, w')
    /\ cache_enabled w' = cache_enabled w
    /\ max_memory_cache_size w' = max_memory_cache_size w
    /\ (memory_cache w' = memory_cache w \/ memory_cache w' = delete key (memory_cache w)).
Proof.
  destruct (cache_enabled w) eqn:Hen.
  2: { rewrite get_disabled by exact Hen. eexists _, _. split; [reflexivity|]. auto. }
  destruct (redis_client w) as [r|] eqn:Hcl.
  2: { rewrite get_no_client by assumption.
       destruct (fast_tier_get_outcome key w) as (a & w' & -> & ? & ? & ?).
       eexists _, _. split; [reflexivity|]. rewrite <- Hen. auto. }
  destruct (redis_get r key) as [[[[|b bs]|]|e] r'] eqn:Hget.
  - rewrite (get_durable_miss key w r r' (Some [])) by auto.
    destruct (fast_tier_get_outcome key (set_redis_client (Some r') w))
      as (a & w' & -> & ? & ? & ?).
    eexists _, _. split; [reflexivity|]. rewrite <- Hen. auto.
  - destruct (frombuffer (b :: bs)) as [a|e] eqn:Hbuf.
    + rewrite (get_durable_hit key w r r' (b :: bs) a) by (auto; discriminate).
      eexists _, _. split; [reflexivity|]. rewrite <- Hen. auto.
    + rewrite (get_durable_garbled key w r r' (b :: bs) e) by (auto; discriminate).
      eexists _, _. split; [reflexivity|]. rewrite <- Hen. auto.
  - rewrite (get_durable_miss key w r r' None) by auto.
    destruct (fast_tier_get_outcome key (set_redis_client (Some r') w))
      as (a & w' & -> & ? & ? & ?).
    eexists _, _. split; [reflexivity|]. rewrite <- Hen. auto.
  - rewrite (get_durable_raises key w r r' e) by assumption.
    eexists _, _. split; [reflexivity|]. rewrite <- Hen. auto.
Qed.

Lemma store_outcome (key : string) (v : Np.ndarray) (w : World) :
  exists w', _store_in_cache key v w = (OK tt, w')
    /\ cache_enabled w' = cache_enabled w
    /\ max_memory_cache_size w' = max_memory_cache_size w
    /\ (memory_cache w' = memory_cache w
        \/ Z.of_nat (size (memory_cache w)) < max_memory_cache_size w
           /\ memory_cache w' = <[key := (v, time_at (ticks w))]> (memory_cache w)).
Proof.
  assert (Hput : forall w1 : World,
             cache_enabled (fast_tier_put key v w1) = cache_enabled w1
             /\ max_memory_cache_size (fast_tier_put key v w1) = max_memory_cache_size w1
             /\ (memory_cache (fast_tier_put key v w1) = memory_cache w1
                 \/ Z.of_nat (size (memory_cache w1)) < max_memory_cache_size w1
                    /\ memory_cache (fast_tier_put key v w1)
                       = <[key := (v, time_at (ticks w1))]> (memory_cache w1))).
  { intros w1. unfold fast_tier_put.
    destruct (Z.ltb_spec (Z.of_nat (size (memory_cache w1))) (max_memory_cache_size w1));
      auto. }
  destruct (cache_enabled w) eqn:Hen.
  2: { rewrite store_disabled by exact Hen. eexists. split; [reflexivity|]. auto. }
  destruct (redis_client w) as [r|] eqn:Hcl.
  2: { rewrite store_no_client by assumption. eexists. split; [reflexivity|].
       rewrite <- Hen. apply Hput. }
  destruct (redis_setex r key (cache_ttl w) (tobytes (astype_float32 v)))
    as [[[]|e] r'] eqn:Hset.
  - rewrite (store_durable_ok key v w r r') by assumption.
    eexists. split; [reflexivity|].
    rewrite <- Hen. apply (Hput (set_redis_client (Some r') w)).
  - rewrite (store_durable_raises key v w r r' e) by assumption.
    eexists. split; [reflexivity|]. rewrite <- Hen. auto.
Qed.

(** C10: when the Redis call raises, the rest of the operation is
    skipped.  [get] answers absent without reading the clock or the fast
    tier, whatever the fast tier holds under the key, and [put] leaves the
    fast tier unwritten. *)
Theorem durable_failure_skips_fast_tier (key : string) (v : Np.ndarray)
    (w : World) (r : Redis) :
  cache_enabled w = true -> redis_client w = Some r ->
  (forall e, fst (redis_get r key) = Raise e ->
     exists w', _get_from_cache key w = (OK None, w')
       /\ memory_cache w' = memory_cache w
       /\ ticks w' = ticks w
       /\ EMBEDDING_CACHE_HITS w' = EMBEDDING_CACHE_HITS w
       /\ EMBEDDING_CACHE_MISSES w' = S (EMBEDDING_CACHE_MISSES w))
  /\ (forall e, fst (redis_setex r key (cache_ttl w) (tobytes (astype_float32 v))) = Raise e ->
     exists w', _store_in_cache key v w = (OK tt, w')
       /\ memory_cache w' = memory_cache w
       /\ ticks w' = ticks w).
Proof.
  intros Hen Hcl. split; intros e Hraise.
  - destruct (redis_get r key) as [res r'] eqn:Hget. simpl in Hraise. subst res.
    rewrite (get_durable_raises key w r r' e) by assumption.
    eexists. split; [reflexivity|]. auto.
  - destruct (redis_setex r key _ _) as [res r'] eqn:Hset. simpl in Hraise. subst res.
    rewrite (store_durable_raises key v w r r' e) by assumption.
    eexists. split; [reflexivity|]. auto.
Qed.

(** C3: [get] asks the durable tier first.  A durable hit is returned
    with no clock reading and no look at the fast tier; after a durable
    miss the fast tier answers: a fresh entry is returned, an entry whose
    age has reached [cache_ttl] is evicted and reported absent. *)
Theorem get_probes_durable_then_fast (key : string) (w : World) (r : Redis) :
  cache_enabled w = true -> redis_client w = Some r ->
  let w1 := set_redis_client (Some (snd (redis_get r key))) w in
  let now := time_at (ticks w) in
  (forall payload a,
     fst (redis_get r key) = OK (Some payload) -> payload <> [] ->
     frombuffer payload = OK a ->
     _get_from_cache key w = (OK (Some a), count_hit w1))
  /\ (fst (redis_get r key) = OK None ->
      (memory_cache w !! key = None ->
       _get_from_cache key w = (OK None, count_miss w1))
      /\ (forall data timestamp,
           memory_cache w !! key = Some (data, timestamp) ->
           ((now - timestamp < inject_Z (cache_ttl w))%Q ->
            _get_from_cache key w = (OK (Some data), count_hit (tick w1)))
           /\ ((inject_Z (cache_ttl w) <= now - timestamp)%Q ->
               _get_from_cache key w = (OK None, count_miss (evict key (tick w1)))
               /\ memory_cache (count_miss (evict key (tick w1))) !! key = None))).
Proof.
  intros Hen Hcl w1 now.
  destruct (redis_get r key) as [res r'] eqn:Hget. simpl in w1. split.
  - intros payload a Hres Hne Hbuf. simpl in Hres. subst res.
    apply (get_durable_hit key w r r' payload a); assumption.
  - intros Hres. simpl in Hres. subst res.
    rewrite (get_durable_miss key w r r' None) by auto.
    unfold fast_tier_get. fold w1.
    change (memory_cache w1) with (memory_cache w).
    change (ticks w1) with (ticks w). change (cache_ttl w1) with (cache_ttl w).
    fold now. split.
    + intros ->. reflexivity.
    + intros data timestamp ->. split.
      * intros Hfresh. apply Qltb_lt in Hfresh. rewrite Hfresh. reflexivity.
      * intros Hold. apply Qltb_ge in Hold. rewrite Hold. split; [reflexivity|].
        apply lookup_delete_eq.
Qed.

Lemma run_ops_outcome (ops : list cache_op) (w : World) :
  Z.of_nat (size (memory_cache w)) <= max_memory_cache_size w ->
  exists w', run_ops ops w = (OK tt, w')
    /\ cache_enabled w' = cache_enabled w
    /\ max_memory_cache_size w' = max_memory_cache_size w
    /\ Z.of_nat (size (memory_cache w')) <= max_memory_cache_size w'.
Proof.
  revert w. induction ops as [|op ops IH]; intros w Hinv.
  - exists w. auto.
  - assert (Hop : exists w1, run_op op w = (OK tt, w1)
                    /\ cache_enabled w1 = cache_enabled w
                    /\ max_memory_cache_size w1 = max_memory_cache_size w
                    /\ Z.of_nat (size (memory_cache w1)) <= max_memory_cache_size w1).
    { destruct op as [key v|key]; cbn [run_op].
      - destruct (store_outcome key v w) as (w1 & Hput & Hen & Hcap & Hmem).
        exists w1. split; [exact Hput|]. split; [exact Hen|]. split; [exact Hcap|].
        rewrite Hcap. destruct Hmem as [-> | [Hlt ->]]; [exact Hinv|].
        rewrite map_size_insert. destruct (memory_cache w !! key); simpl; lia.
      - destruct (get_outcome key w) as (a & w1 & Hget & Hen & Hcap & Hmem).
        exists w1. split; [unfold bind, ret; rewrite Hget; reflexivity|].
        split; [exact Hen|]. split; [exact Hcap|].
        rewrite Hcap. destruct Hmem as [-> | ->]; [exact Hinv|].
        rewrite map_size_delete. destruct (memory_cache w !! key); simpl; lia. }
    destruct Hop as (w1 & Hrun & Hen & Hcap & Hinv1).
    destruct (IH w1 Hinv1) as (w' & Hrest & Hen' & Hcap' & Hinv').
    exists w'. cbn [run_ops]. unfold bind. rewrite Hrun, Hrest.
    split; [reflexivity|]. split; [congruence|]. split; [congruence|]. exact Hinv'.
Qed.

Lemma store_in_fast_tier (key : string) (v : Np.ndarray) (w : World) :
  cache_enabled w = true ->
  let payload := tobytes (astype_float32 v) in
  let entry := <[key := (v, time_at (ticks w))]> (memory_cache w) in
  exists w', _store_in_cache key v w = (OK tt, w')
    /\ (max_memory_cache_size w <= Z.of_nat (size (memory_cache w)) ->
        memory_cache w' = memory_cache w)
    /\ (forall r, redis_client w = Some r ->
        redis_client w' = Some (snd (redis_setex r key (cache_ttl w) payload)))
    /\ (Z.of_nat (size (memory_cache w)) < max_memory_cache_size w ->
        (forall r, redis_client w = Some r ->
           fst (redis_setex r key (cache_ttl w) payload) = OK tt) ->
        memory_cache w' = entry)
    /\ (memory_cache w' = memory_cache w \/ memory_cache w' = entry).
Proof.
  intros Hen payload entry.
  assert (Hput : forall w1 : World,
             memory_cache w1 = memory_cache w -> ticks w1 = ticks w ->
             max_memory_cache_size w1 = max_memory_cache_size w ->
             redis_client (fast_tier_put key v w1) = redis_client w1
             /\ (max_memory_cache_size w <= Z.of_nat (size (memory_cache w)) ->
                 memory_cache (fast_tier_put key v w1) = memory_cache w)
             /\ (Z.of_nat (size (memory_cache w)) < max_memory_cache_size w ->
                 memory_cache (fast_tier_put key v w1) = entry)
             /\ (memory_cache (fast_tier_put key v w1) = memory_cache w
                 \/ memory_cache (fast_tier_put key v w1) = entry)).
  { intros w1 Hm Ht Hc. unfold fast_tier_put. rewrite Hm, Hc.
    destruct (Z.ltb_spec (Z.of_nat (size (memory_cache w))) (max_memory_cache_size w)).
    - unfold remember, entry. cbn. rewrite Hm, Ht.
      split; [reflexivity|]. split; [lia|]. split; [reflexivity | right; reflexivity].
    - split; [reflexivity|]. split; [intros _; exact Hm|].
      split; [lia | left; exact Hm]. }
  destruct (redis_client w) as [r|] eqn:Hcl.
  - destruct (redis_setex r key (cache_ttl w) payload) as [[[]|e] r'] eqn:Hset.
    + rewrite (store_durable_ok key v w r r') by assumption.
      destruct (Hput (set_redis_client (Some r') w)) as (Hr & Hfull & Hroom & Hany);
        try reflexivity.
      eexists. split; [reflexivity|]. split; [exact Hfull|]. split.
      { intros r0 [= <-]. fold payload. rewrite Hset, Hr. reflexivity. }
      split; [intros Hlt _; apply Hroom; exact Hlt | exact Hany].
    + rewrite (store_durable_raises key v w r r' e) by assumption.
      eexists. split; [reflexivity|]. split; [reflexivity|]. split.
      { intros r0 [= <-]. fold payload. rewrite Hset. reflexivity. }
      split; [|left; reflexivity].
      intros _ Hok. specialize (Hok r eq_refl). fold payload in Hok.
      rewrite Hset in Hok. discriminate Hok.
  - rewrite store_no_client by assumption.
    destruct (Hput w) as (Hr & Hfull & Hroom & Hany); try reflexivity.
    eexists. split; [reflexivity|]. split; [exact Hfull|]. split; [discriminate|].
    split; [intros Hlt _; apply Hroom; exact Hlt | exact Hany].
Qed.

(** C4: after any sequence of puts and gets from an empty fast tier, the
    occupancy is within the capacity, and a further put is admitted to
    the fast tier only below the capacity: at capacity the fast tier is
    left exactly as it was, nothing evicted, while the durable write is
    made all the same. *)
Theorem fast_tier_bounded (ops : list cache_op) (w : World) :
  cache_enabled w = true -> memory_cache w = ∅ -> 0 <= max_memory_cache_size w ->
  exists w', run_ops ops w = (OK tt, w')
    /\ Z.of_nat (size (memory_cache w')) <= max_memory_cache_size w'
    /\ forall key v,
        let payload := tobytes (astype_float32 v) in
        let entry := <[key := (v, time_at (ticks w'))]> (memory_cache w') in
        exists w'', _store_in_cache key v w' = (OK tt, w'')
          /\ (max_memory_cache_size w' <= Z.of_nat (size (memory_cache w')) ->
              memory_cache w'' = memory_cache w')
          /\ (forall r, redis_client w' = Some r ->
              redis_client w'' = Some (snd (redis_setex r key (cache_ttl w') payload)))
          /\ (Z.of_nat (size (memory_cache w')) < max_memory_cache_size w' ->
              (forall r, redis_client w' = Some r ->
                 fst (redis_setex r key (cache_ttl w') payload) = OK tt) ->
              memory_cache w'' = entry)
          /\ (memory_cache w'' = memory_cache w' \/ memory_cache w'' = entry).
Proof.
  intros Hen Hempty Hcap.
  destruct (run_ops_outcome ops w) as (w' & Hrun & Hen' & Hcap' & Hinv).
  { rewrite Hempty, map_size_empty. simpl. exact Hcap. }
  exists w'. split; [exact Hrun|]. split; [exact Hinv|].
  intros key v. apply store_in_fast_tier. congruence.
Qed.


End CacheFacts.

(** ** Batches and the consistency check *)

Section ServiceFacts.
Context `{DurableStore} `{EmbeddingOracle} `{Clock}.
Import Float FloatFacts.

Lemma encode_image_returns (image_data : string) (cache_key : option string)
    (w : World) (e : Np.ndarray) :
  clip_encode_image image_data = OK e ->
  exists e' w', encode_image image_data cache_key w = (OK e', w').
Proof.
  intros Horacle. unfold encode_image.
  unfold bind, get_world, ret, try_except, lift, raise, time_time,
    request_count_inc, modify.
  rewrite Horacle.
  destruct (cache_enabled w); destruct (truthy cache_key); cbn [andb];
    repeat match goal with
    | |- context [_get_from_cache ?k ?W] =>
        let a := fresh "a" in
        destruct (get_outcome k W) as ([a|] & ? & -> & _)
    | |- context [_store_in_cache ?k ?v ?W] =>
        destruct (store_outcome k v W) as (? & -> & _)
    | |- context [truthy ?k] => destruct (truthy k)
    end;
    eexists _, _; reflexivity.
Qed.

Lemma encode_text_returns (text : string) (cache_key : option string)
    (w : World) (row : Np.ndarray) (rows : list Np.ndarray) :
  clip_encode_text [text] = OK (row :: rows) ->
  exists rows' w', encode_text (Single text) cache_key w = (OK rows', w').
Proof.
  intros Horacle. unfold encode_text.
  unfold bind, get_world, ret, try_except, lift, raise, time_time,
    request_count_inc, modify.
  cbn [hd andb]. rewrite Horacle. cbn [row0].
  destruct (cache_enabled w); destruct (truthy cache_key); cbn [andb];
    repeat match goal with
    | |- context [_get_from_cache ?k ?W] =>
        let a := fresh "a" in
        destruct (get_outcome k W) as ([a|] & ? & -> & _)
    | |- context [_store_in_cache ?k ?v ?W] =>
        destruct (store_outcome k v W) as (? & -> & _)
    | |- context [truthy ?k] => destruct (truthy k)
    end;
    eexists _, _; reflexivity.
Qed.

(** C5: whatever the durable store does, raising included, the two cache
    operations return normally; a read the store fails is answered as a
    miss, and a write the store fails leaves the service as it was, the
    store's own state apart; so a request for an image or a text
    embedding fails only if the oracle does. *)
Theorem cache_operations_never_raise (key : string) (v : Np.ndarray) (w : World) :
  (exists answer w', _get_from_cache key w = (OK answer, w'))
  /\ (exists w', _store_in_cache key v w = (OK tt, w'))
  /\ (forall r e, cache_enabled w = true -> redis_client w = Some r ->
        fst (redis_get r key) = Raise e ->
        fst (_get_from_cache key w) = OK None)
  /\ (forall r e, cache_enabled w = true -> redis_client w = Some r ->
        fst (redis_setex r key (cache_ttl w) (Wire.tobytes (Wire.astype_float32 v))) = Raise e ->
        _store_in_cache key v w =
          (OK tt, set_redis_client
                    (Some (snd (redis_setex r key (cache_ttl w)
                                  (Wire.tobytes (Wire.astype_float32 v))))) w))
  /\ (forall image_data cache_key e,
        clip_encode_image image_data = OK e ->
        exists e' w', encode_image image_data cache_key w = (OK e', w'))
  /\ (forall text cache_key row rows,
        clip_encode_text [text] = OK (row :: rows) ->
        exists rows' w', encode_text (Single text) cache_key w = (OK rows', w')).
Proof.
  split; [|split; [|split; [|split; [|split]]]].
  - destruct (get_outcome key w) as (a & w' & Hget & _). eauto.
  - destruct (store_outcome key v w) as (w' & Hput & _). eauto.
  - intros r e Hen Hcl Hraise.
    destruct (redis_get r key) as [res r'] eqn:Hget. simpl in Hraise. subst res.
    rewrite (get_durable_raises key w r r' e) by assumption. reflexivity.
  - intros r e Hen Hcl Hraise.
    destruct (redis_setex r key _ _) as [res r'] eqn:Hset. simpl in Hraise. subst res.
    rewrite (store_durable_raises key v w r r' e) by assumption. reflexivity.
  - intros image_data cache_key e. apply encode_image_returns.
  - intros text cache_key row rows. apply encode_text_returns.
Qed.

Lemma batch_image_loop_encode_each (items : list item) (results : list Np.ndarray)
    (w : World) :
  batch_image_loop items results w =
    match encode_each items w with
    | (OK embeddings, w') => (OK (results ++ embeddings), w')
    | (Raise e, w') => (Raise e, w')
    end.
Proof.
  revert results w. induction items as [|it items IH]; intros results w.
  - simpl. unfold ret. rewrite app_nil_r. reflexivity.
  - cbn [batch_image_loop encode_each]. unfold bind, ret.
    destruct (encode_image (item_image it) (item_cache_key it) w) as [[e|err] w1];
      [|reflexivity].
    rewrite IH.
    destruct (encode_each items w1) as [[es|err] w2]; [|reflexivity].
    rewrite <- app_assoc. reflexivity.
Qed.

Lemma encode_each_indexed (items : list item) (w : World)
    (res : list Np.ndarray) (w' : World) :
  encode_each items w = (OK res, w') ->
  length res = length items
  /\ forall (i : nat) (it : item), items !! i = Some it ->
       exists wi wi' e,
         encode_each (take i items) w = (OK (take i res), wi)
         /\ encode_image (item_image it) (item_cache_key it) wi = (OK e, wi')
         /\ res !! i = Some e.
Proof.
  revert w res w'. induction items as [|it0 items IH]; intros w res w' Hrun.
  - inversion Hrun; subst. split; [reflexivity|]. intros i it Hi. discriminate Hi.
  - cbn [encode_each] in Hrun. unfold bind, ret in Hrun.
    destruct (encode_image (item_image it0) (item_cache_key it0) w) as [[e0|err] w1] eqn:Hfirst;
      [|discriminate].
    destruct (encode_each items w1) as [[es|err] w2] eqn:Hrest; [|discriminate].
    inversion Hrun; subst res w2. clear Hrun.
    destruct (IH w1 es w' Hrest) as [Hlen Hidx].
    split; [simpl; congruence|].
    intros [|i] it Hi.
    + inversion Hi; subst it. exists w, w1, e0. auto.
    + destruct (Hidx i it Hi) as (wi & wi' & e & Hpre & Hone & Hres).
      exists wi, wi', e. split; [|auto].
      cbn [take encode_each]. unfold bind, ret. rewrite Hfirst, Hpre. reflexivity.
Qed.

Lemma encode_image_no_cache (image_data : string) (cache_key : option string)
    (w : World) (e : Np.ndarray) :
  cache_enabled w = false -> clip_encode_image image_data = OK e ->
  encode_image image_data cache_key w = (OK e, count_request (tick (tick w))).
Proof.
  intros Hen Horacle. unfold encode_image.
  unfold bind, try_except, get_world, ret, lift, time_time, request_count_inc, modify.
  rewrite Hen. simpl. rewrite Horacle. reflexivity.
Qed.



Lemma reference_loop_length (gen_embedding : Np.ndarray) (refs : list string)
    (acc : list float) (w : World) (sims : list float) (w' : World) :
  reference_loop gen_embedding refs acc w = (OK sims, w') ->
  length sims = (length acc + length refs)%nat.
Proof.
  revert acc w. induction refs as [|ref refs IH]; intros acc w Hrun.
  - inversion Hrun; subst. simpl. lia.
  - cbn [reference_loop] in Hrun. unfold bind, lift in Hrun.
    destruct (encode_image ref None w) as [[e|err] w1]; [|discriminate].
    destruct (float_dot gen_embedding e) as [s|err]; [|discriminate].
    apply IH in Hrun. rewrite Hrun, length_app. simpl. lia.
Qed.

Lemma float_dot_aligned (a b : Np.ndarray) :
  length a = length b ->
  float_dot a b = OK (convert binary64 (Np.sum_products binary32 a b)).
Proof.
  intros Hlen. unfold float_dot, Np.dot. rewrite Hlen, Nat.eqb_refl. reflexivity.
Qed.

Lemma encode_text_no_cache (text : string) (cache_key : option string)
    (w : World) (rows : list Np.ndarray) :
  cache_enabled w = false -> clip_encode_text [text] = OK rows ->
  encode_text (Single text) cache_key w = (OK rows, count_request (tick (tick w))).
Proof.
  intros Hen Horacle. unfold encode_text.
  unfold bind, try_except, get_world, ret, lift, time_time, request_count_inc, modify.
  rewrite Hen. simpl. rewrite Horacle. reflexivity.
Qed.

Lemma reference_loop_no_cache (emb : string -> Np.ndarray) (g : Np.ndarray)
    (refs : list string) (acc : list float) (w : World) :
  cache_enabled w = false ->
  (forall image_data, clip_encode_image image_data = OK (emb image_data)) ->
  (forall image_data, length (emb image_data) = length g) ->
  exists w',
    reference_loop g refs acc w =
      (OK (acc ++ map (fun r => convert binary64 (Np.sum_products binary32 g (emb r))) refs),
       w')
    /\ cache_enabled w' = false.
Proof.
  intros Hen Horacle Hdim. revert acc w Hen.
  induction refs as [|ref refs IH]; intros acc w Hen.
  - exists w. cbn [reference_loop map]. unfold ret. rewrite app_nil_r. auto.
  - cbn [reference_loop map]. unfold bind, lift.
    rewrite (encode_image_no_cache ref None w (emb ref) Hen (Horacle ref)).
    rewrite float_dot_aligned by (symmetry; apply Hdim).
    destruct (IH (acc ++ [convert binary64 (Np.sum_products binary32 g (emb ref))])
                 (count_request (tick (tick w))) Hen) as (w' & -> & Hen').
    exists w'. rewrite <- app_assoc. auto.
Qed.

(** C1: the verdict's score is the average image similarity when no text
    similarity was computed and [0.7 * average + 0.3 * text_similarity]
    when one was; the average is 0.0 when there are no references, which
    is no error; and [passed] is [score >= threshold], true in particular
    when the two are equal.  On a service without cache whose oracle
    answers every input with a vector of one dimension the check always
    returns a verdict, whose similarities are the dot products of the
    generated embedding with the reference embeddings, in input order,
    and with the text embedding. *)
Theorem consistency_score_blend (request : ConsistencyRequest) (w : World) :
  (forall verdict w',
     check_character_consistency request w = (OK verdict, w') ->
     let sims := image_similarities verdict in
     let avg_image_similarity :=
       match sims with [] => pzero | _ => Np.mean binary64 sims end in
     length sims = length (reference_images request)
     /\ (text_similarity verdict = None <-> truthy (text_description request) = false)
     /\ consistency_score verdict =
          match text_similarity verdict with
          | None => avg_image_similarity
          | Some text_similarity =>
              add binary64 (mul binary64 lit_0_7 avg_image_similarity)
                           (mul binary64 lit_0_3 text_similarity)
          end
     /\ (reference_images request = [] -> avg_image_similarity = pzero)
     /\ passed verdict = geb (consistency_score verdict) (threshold request)
     /\ (eqb (consistency_score verdict) (threshold request) = true ->
         passed verdict = true))
  /\ (reference_images request = [] -> truthy (text_description request) = false ->
      forall g w1,
        encode_image (generated_image request) None w = (OK g, w1) ->
        exists verdict,
          check_character_consistency request w = (OK verdict, w1)
          /\ consistency_score verdict = pzero
          /\ passed verdict = geb pzero (threshold request))
  /\ (cache_enabled w = false ->
      forall (image_embedding text_embedding : string -> Np.ndarray) (dimension : nat),
        (forall image_data, clip_encode_image image_data = OK (image_embedding image_data)) ->
        (forall texts, clip_encode_text texts = OK (map text_embedding texts)) ->
        (forall image_data, length (image_embedding image_data) = dimension) ->
        (forall text, length (text_embedding text) = dimension) ->
        let gen := image_embedding (generated_image request) in
        exists verdict w',
          check_character_consistency request w = (OK verdict, w')
          /\ image_similarities verdict =
               map (fun r => convert binary64
                               (Np.sum_products binary32 gen (image_embedding r)))
                   (reference_images request)
          /\ text_similarity verdict =
               if truthy (text_description request)
               then Some (convert binary64
                            (Np.sum_products binary32 gen
                               (text_embedding (default "" (text_description request)))))
               else None).
Proof.
  split; [|split].
  - intros verdict w' Hrun sims avg_image_similarity.
    unfold check_character_consistency in Hrun.
    unfold try_except, bind, lift, ret, raise in Hrun.
    destruct (encode_image (generated_image request) None w) as [[g|err] w1];
      [|discriminate].
    destruct (reference_loop g (reference_images request) [] w1)
      as [[image_sims|err] w2] eqn:Hloop; [|discriminate].
    apply reference_loop_length in Hloop. simpl in Hloop.
    assert (Havg : reference_images request = [] ->
                   match image_sims with
                   | [] => pzero
                   | _ => Np.mean binary64 image_sims
                   end = pzero).
    { intros Hrefs. rewrite Hrefs in Hloop.
      destruct image_sims; [reflexivity | discriminate]. }
    destruct (truthy (text_description request)) eqn:Htext.
    + destruct (encode_text _ None w2) as [[rows|err] w3]; [|discriminate].
      destruct (row0 rows) as [r|err]; [|discriminate].
      destruct (float_dot g r) as [t|err]; [|discriminate].
      injection Hrun as Hverdict _. subst verdict sims avg_image_similarity.
      cbn [image_similarities text_similarity consistency_score passed].
      split; [exact Hloop|]. split; [split; discriminate|].
      split; [reflexivity|]. split; [exact Havg|]. split; [reflexivity|].
      apply eqb_geb.
    + injection Hrun as Hverdict _. subst verdict sims avg_image_similarity.
      cbn [image_similarities text_similarity consistency_score passed].
      split; [exact Hloop|]. split; [split; reflexivity|].
      split; [reflexivity|]. split; [exact Havg|]. split; [reflexivity|].
      apply eqb_geb.
  - intros Hrefs Htext g w1 Hgen.
    unfold check_character_consistency.
    unfold try_except, bind, lift, ret, raise.
    rewrite Hgen, Hrefs. cbn [reference_loop]. unfold ret. rewrite Htext.
    eexists. split; [reflexivity|]. split; reflexivity.
  - intros Hen image_embedding text_embedding dimension Himage Htexts Hdi Hdt gen.
    unfold check_character_consistency.
    unfold try_except, bind, lift, ret, raise.
    rewrite (encode_image_no_cache _ None w gen Hen (Himage _)).
    destruct (reference_loop_no_cache image_embedding gen (reference_images request) []
                (count_request (tick (tick w))) Hen Himage)
      as (w2 & -> & Hen2).
    { intros image_data. unfold gen. rewrite !Hdi. reflexivity. }
    cbn [app].
    destruct (truthy (text_description request)).
    + rewrite (encode_text_no_cache _ None w2 _ Hen2 (Htexts _)).
      cbn [map row0].
      rewrite float_dot_aligned by (unfold gen; rewrite Hdi, Hdt; reflexivity).
      eexists _, _. split; [reflexivity|]. split; reflexivity.
    + eexists _, _. split; [reflexivity|]. split; reflexivity.
Qed.

End ServiceFacts.

(** ** The properties at work on the sample collaborators *)

Lemma cache_operations_never_raise_witness :
  fst (@_get_from_cache down_store sample_clock "k" down_warm) = OK None
  /\ @_store_in_cache down_store sample_clock "k" sample_vector down_warm
     = (OK tt, down_warm).
Proof.
  destruct (@cache_operations_never_raise down_store sample_oracle sample_clock "k"
              sample_vector down_warm) as (_ & _ & Hget & Hput & _).
  split.
  - apply (Hget tt (ExternalError "redis" "Connection refused")); reflexivity.
  - rewrite (Hput tt (ExternalError "redis" "Connection refused")); reflexivity.
Defined.

Lemma durable_failure_skips_fast_tier_witness :
  memory_cache down_warm !! "k" = Some (sample_vector, 0%Q)
  /\ fst (@_get_from_cache down_store sample_clock "k" clientless_warm)
     = OK (Some sample_vector)
  /\ (exists w', @_get_from_cache down_store sample_clock "k" down_warm = (OK None, w')
               /\ memory_cache w' = memory_cache down_warm
               /\ ticks w' = 0%nat)
  /\ (exists w', @_store_in_cache down_store sample_clock "j" sample_vector down_warm
                 = (OK tt, w')
               /\ memory_cache w' !! "j" = None).
Proof.
  destruct (@durable_failure_skips_fast_tier down_store sample_clock "k" sample_vector
              down_warm tt eq_refl eq_refl) as [Hget _].
  destruct (@durable_failure_skips_fast_tier down_store sample_clock "j" sample_vector
              down_warm tt eq_refl eq_refl) as [_ Hput].
  split; [reflexivity|]. split; [reflexivity|]. split.
  - destruct (Hget (ExternalError "redis" "Connection refused") eq_refl)
      as (w' & Hrun & Hmem & Hticks & _).
    exists w'. auto.
  - destruct (Hput (ExternalError "redis" "Connection refused") eq_refl)
      as (w' & Hrun & Hmem & _).
    exists w'. split; [exact Hrun|]. rewrite Hmem. reflexivity.
Defined.

Lemma get_probes_durable_then_fast_witness :
  fst (@_get_from_cache dict_store sample_clock "k"
         (dict_warm {[ "k" := Wire.tobytes [f32 0; f32 1] ]} 100))
    = OK (Some [f32 0; f32 1])
  /\ fst (@_get_from_cache dict_store sample_clock "k" (dict_warm ∅ 10))
     = OK (Some sample_vector)
  /\ fst (@_get_from_cache dict_store sample_clock "k" (dict_warm ∅ 60)) = OK None
  /\ memory_cache (snd (@_get_from_cache dict_store sample_clock "k" (dict_warm ∅ 60)))
       !! "k" = None.
Proof.
  destruct (@get_probes_durable_then_fast dict_store sample_clock "k"
              (dict_warm {[ "k" := Wire.tobytes [f32 0; f32 1] ]} 100)
              {[ "k" := Wire.tobytes [f32 0; f32 1] ]} eq_refl eq_refl) as [Hhit _].
  destruct (@get_probes_durable_then_fast dict_store sample_clock "k"
              (dict_warm ∅ 10) ∅ eq_refl eq_refl) as [_ Hfresh].
  destruct (@get_probes_durable_then_fast dict_store sample_clock "k"
              (dict_warm ∅ 60) ∅ eq_refl eq_refl) as [_ Hold].
  destruct (Hfresh eq_refl) as [_ Hfresh'].
  destruct (Hfresh' sample_vector 0%Q eq_refl) as [Hfresh'' _].
  destruct (Hold eq_refl) as [_ Hold'].
  destruct (Hold' sample_vector 0%Q eq_refl) as [_ Hold''].
  destruct Hold'' as [Hrun Hgone]; [vm_compute; discriminate|].
  split.
  { exact (f_equal fst (Hhit (Wire.tobytes [f32 0; f32 1]) [f32 0; f32 1] eq_refl
                          ltac:(discriminate) eq_refl)). }
  split; [exact (f_equal fst (Hfresh'' eq_refl))|].
  split; [exact (f_equal fst Hrun)|].
  exact (eq_trans (f_equal (fun o => memory_cache (snd o) !! "k") Hrun) Hgone).
Defined.

Lemma fast_tier_bounded_witness :
  exists w',
    @run_ops dict_store sample_clock sample_ops (cold_world 1) = (OK tt, w')
    /\ Z.of_nat (size (memory_cache w')) <= 1
    /\ is_Some (memory_cache w' !! "a")
    /\ memory_cache w' !! "b" = None
    /\ match redis_client w' with
       | Some store => (store : gmap string Wire.bytes) !! "b"
       | None => None
       end = Some (Wire.tobytes sample_vector).
Proof.
  destruct (@fast_tier_bounded dict_store sample_clock sample_ops (cold_world 1))
    as (w' & Hrun & Hsize & _).
  - reflexivity.
  - reflexivity.
  - simpl. lia.
  - exists w'. split; [exact Hrun|].
    assert (Hw : w' = snd (@run_ops dict_store sample_clock sample_ops (cold_world 1)))
      by (rewrite Hrun; reflexivity).
    rewrite Hw in Hsize |- *. split; [exact Hsize|].
    split; [eexists; reflexivity|]. split; reflexivity.
Defined.



Lemma consistency_score_blend_witness :
  fst (@check_character_consistency dict_store sample_oracle sample_clock
         sample_request (cold_world 1000)) = OK sample_verdict
  /\ length (image_similarities sample_verdict) = 2%nat
  /\ consistency_score sample_verdict =
       Float.add Float.binary64
         (Float.mul Float.binary64 Float.lit_0_7
            (Np.mean Float.binary64 (image_similarities sample_verdict)))
         (Float.mul Float.binary64 Float.lit_0_3 (S754_zero false))
  /\ passed sample_verdict = Float.geb (consistency_score sample_verdict) Float.lit_0_7.
Proof.
  destruct (@consistency_score_blend dict_store sample_oracle sample_clock
              sample_request (cold_world 1000)) as (Hblend & _ & _).
  destruct (Hblend sample_verdict
              (snd (@check_character_consistency dict_store sample_oracle sample_clock
                      sample_request (cold_world 1000))))
    as (Hlen & _ & Hscore & _ & Hpassed & _); [vm_compute; reflexivity|].
  split; [vm_compute; reflexivity|].
  split; [exact Hlen|]. split; [exact Hscore | exact Hpassed].
Defined.

(** * Further properties of the two files *)

(** ** Device selection *)

Section DeviceFacts.

(** What the loop knows after the devices in [seen]: nothing yet, or the
    first device of the largest memory so far. *)
Lemma best_device_loop_first_largest (rest seen : list Z) (max_memory : Z) (best : nat) :
  List.Forall (fun m => 0 <= m) rest ->
  (seen = [] /\ max_memory = 0 /\ best = 0%nat)
  \/ (seen !! best = Some max_memory
      /\ List.Forall (fun m => m <= max_memory) seen
      /\ forall j x, (j < best)%nat -> seen !! j = Some x -> x < max_memory) ->
  seen ++ rest <> [] ->
  exists m,
    (seen ++ rest) !! best_device_loop rest (length seen) max_memory best = Some m
    /\ List.Forall (fun x => x <= m) (seen ++ rest)
    /\ forall j x, (j < best_device_loop rest (length seen) max_memory best)%nat ->
                   (seen ++ rest) !! j = Some x -> x < m.
Proof.
  revert seen max_memory best.
  induction rest as [|memory rest IH]; intros seen max_memory best Hpos Hinv Hne.
  - rewrite app_nil_r in *. cbn [best_device_loop].
    destruct Hinv as [(-> & _) | (Hbest & Hall & Hfirst)]; [contradiction|].
    exists max_memory. auto.
  - inversion Hpos as [|? ? Hmem Hpos']; subst.
    cbn [best_device_loop].
    replace (seen ++ memory :: rest) with ((seen ++ [memory]) ++ rest)
      by (rewrite <- app_assoc; reflexivity).
    replace (S (length seen)) with (length (seen ++ [memory]))
      by (rewrite length_app; simpl; lia).
    destruct (Z.ltb_spec max_memory memory) as [Hlt | Hge].
    + apply IH; [exact Hpos' | | destruct seen; discriminate].
      right. split; [|split].
      * rewrite lookup_app_r by lia. rewrite Nat.sub_diag. reflexivity.
      * apply List.Forall_app. split; [|constructor; [lia | constructor]].
        destruct Hinv as [(-> & _) | (_ & Hall & _)]; [constructor|].
        eapply List.Forall_impl; [|exact Hall]. simpl. intros; lia.
      * intros j x Hj Hx. rewrite lookup_app_l in Hx by exact Hj.
        destruct Hinv as [(-> & _) | (_ & Hall & _)]; [discriminate Hx|].
        apply list_elem_of_lookup_2, list_elem_of_In in Hx.
        pose proof (proj1 (List.Forall_forall _ _) Hall x Hx). simpl in *. lia.
    + apply IH; [exact Hpos' | | destruct seen; discriminate].
      right. destruct Hinv as [(-> & -> & ->) | (Hbest & Hall & Hfirst)].
      * assert (memory = 0) by lia. subst memory.
        split; [reflexivity|]. split; [repeat constructor; lia|].
        intros j x Hj. lia.
      * assert (Hlen : (best < length seen)%nat) by (eapply lookup_lt_Some; exact Hbest).
        split; [rewrite lookup_app_l by exact Hlen; exact Hbest|].
        split; [apply List.Forall_app; split; [exact Hall | repeat constructor; lia]|].
        intros j x Hj Hx. rewrite lookup_app_l in Hx by lia. eauto.
Qed.

(** [_select_optimal_device] answers ["cpu"] exactly when CUDA is not
    available or has no device; otherwise it names the first device
    whose total memory is the largest. *)
Theorem select_optimal_device_first_largest (cuda : Cuda) :
  List.Forall (fun m => 0 <= m) (total_memory cuda) ->
  (is_available cuda = false \/ total_memory cuda = [] ->
   _select_optimal_device cuda = "cpu")
  /\ (is_available cuda = true -> total_memory cuda <> [] ->
      exists (i : nat) (m : Z),
        _select_optimal_device cuda = ("cuda:" ++ pretty i)%string
        /\ total_memory cuda !! i = Some m
        /\ List.Forall (fun x => x <= m) (total_memory cuda)
        /\ forall j x, (j < i)%nat -> total_memory cuda !! j = Some x -> x < m).
Proof.
  intros Hpos. unfold _select_optimal_device. split.
  - intros [-> | ->]; [reflexivity|]. destruct (is_available cuda); reflexivity.
  - intros -> Hne.
    destruct (best_device_loop_first_largest (total_memory cuda) [] 0 0 Hpos)
      as (m & Hm & Hall & Hfirst); [left; auto | exact Hne |].
    cbn [app length] in *.
    exists (best_device_loop (total_memory cuda) 0 0 0), m.
    split; [|auto].
    destruct (total_memory cuda); [contradiction | reflexivity].
Qed.

Lemma select_optimal_device_first_largest_witness :
  exists (i : nat) (m : Z),
    _select_optimal_device {| is_available := true; total_memory := [8; 16; 16; 4] |}
      = ("cuda:" ++ pretty i)%string
    /\ [8; 16; 16; 4] !! i = Some m
    /\ List.Forall (fun x => x <= m) [8; 16; 16; 4]
    /\ forall j x, (j < i)%nat -> [8; 16; 16; 4] !! j = Some x -> x < m.
Proof.
  apply (select_optimal_device_first_largest
           {| is_available := true; total_memory := [8; 16; 16; 4] |}).
  - repeat constructor; lia.
  - reflexivity.
  - discriminate.
Defined.

End DeviceFacts.

(** ** Cache keys *)

Section KeyFacts.
Context `{EmbeddingOracle}.

Lemma append_inj_r (p a b : string) : (p ++ a = p ++ b)%string -> a = b.
Proof.
  induction p as [|c p IH]; simpl; intros Heq; [exact Heq|].
  injection Heq as Heq. apply IH. exact Heq.
Qed.

Lemma derived_key_truthy (data prefix : string) :
  truthy (Some (_get_cache_key data prefix)) = true.
Proof.
  unfold truthy, _get_cache_key. apply negb_true_iff.
  destruct prefix; reflexivity.
Qed.

(** The keys [_get_cache_key] derives for texts and for images never
    coincide; under one prefix two contents share a key exactly when
    their digests coincide; and a derived key is never empty, so it
    passes the [if ... and cache_key] tests of the encoders. *)
Theorem cache_key_namespaces (data data' : string) :
  _get_cache_key data "text" <> _get_cache_key data' "image"
  /\ (forall prefix,
        _get_cache_key data prefix = _get_cache_key data' prefix
        <-> md5_hexdigest data = md5_hexdigest data')
  /\ (forall prefix, truthy (Some (_get_cache_key data prefix)) = true).
Proof.
  split; [|split].
  - unfold _get_cache_key. simpl. discriminate.
  - intros prefix. unfold _get_cache_key. split.
    + intros Heq. apply append_inj_r in Heq. simpl in Heq.
      injection Heq as Heq. exact Heq.
    + intros ->. reflexivity.
  - intros prefix. apply derived_key_truthy.
Qed.

End KeyFacts.

(** ** Similarity and search, further *)

Section SearchFacts.
Import Float FloatFacts.

Lemma mul_comm f x y : mul f x y = mul f y x.
Proof.
  destruct x as [sx|sx| |sx mx ex], y as [sy|sy| |sy my ey]; simpl;
    try reflexivity; try (rewrite (xorb_comm sx sy); reflexivity).
  unfold mul, SFmul.
  rewrite (xorb_comm sx sy), (Pos.mul_comm mx my), (Z.add_comm ex ey). reflexivity.
Qed.

Lemma fold_products_comm f (a b : Np.ndarray) (acc : float) :
  fold_left (fun acc xy => add f acc (mul f (fst xy) (snd xy))) (combine a b) acc
  = fold_left (fun acc xy => add f acc (mul f (fst xy) (snd xy))) (combine b a) acc.
Proof.
  revert b acc. induction a as [|x a IH]; intros [|y b] acc; try reflexivity.
  cbn [combine fold_left fst snd]. rewrite (mul_comm f x y). apply IH.
Qed.

Lemma sum_products_comm f (a b : Np.ndarray) :
  Np.sum_products f a b = Np.sum_products f b a.
Proof. apply fold_products_comm. Qed.



(** Whatever the loop returns, it is the candidates scored in order. *)
Lemma similarities_loop_result (query : list float)
    (cands : list (nat * list float)) (acc sims : list SimilarityResult) :
  similarities_loop (normalize query) cands acc = OK sims ->
  sims = acc ++ map (fun ic => {| index := fst ic; similarity := cosine query (snd ic) |})
                    cands.
Proof.
  revert acc. induction cands as [|[i c] cands IH]; intros acc Hrun.
  - simpl in Hrun. injection Hrun as <-. rewrite app_nil_r. reflexivity.
  - cbn [similarities_loop] in Hrun. unfold Np.dot in Hrun.
    destruct (Nat.eqb (length (normalize query)) (length (normalize c)));
      [|discriminate Hrun].
    cbn [rbind] in Hrun. apply IH in Hrun. rewrite Hrun, <- app_assoc. reflexivity.
Qed.

Lemma similarities_loop_mismatch (query : list float)
    (cands : list (nat * list float)) (acc : list SimilarityResult) :
  List.Exists (fun ic => length (snd ic) <> length query) cands ->
  similarities_loop (normalize query) cands acc = Raise (ValueError "shapes not aligned").
Proof.
  intros Hex. revert acc. induction cands as [|[i c] cands IH]; intros acc.
  - inversion Hex.
  - cbn [similarities_loop].
    destruct (Nat.eq_dec (length c) (length query)) as [Heq | Hne].
    + rewrite dot_aligned by (rewrite !normalize_length; congruence).
      cbn [rbind]. apply IH. inversion Hex; subst; [contradiction | assumption].
    + rewrite dot_mismatch by (rewrite !normalize_length; congruence). reflexivity.
Qed.

Lemma slice_to_firstn {A} (l : list A) (k : Z) : exists n, slice_to l k = firstn n l.
Proof. unfold slice_to. destruct (0 <=? k); eauto. Qed.

Lemma scored_indices (query : list float) (candidates : list (list float)) :
  map index (scored query candidates) = seq 0 (length candidates).
Proof.
  unfold scored, enumerate. rewrite map_map. cbn [index].
  generalize 0%nat as start.
  induction candidates as [|c cs IH]; intros start; simpl; [reflexivity|].
  rewrite IH. reflexivity.
Qed.

Lemma combine_seq_lookup {A} (l : list A) (start i : nat) (c : A) :
  In (i, c) (combine (seq start (length l)) l) ->
  (start <= i)%nat /\ l !! (i - start)%nat = Some c.
Proof.
  revert start. induction l as [|x l IH]; intros start Hin; [destruct Hin|].
  simpl in Hin. destruct Hin as [Heq | Hin].
  - injection Heq as <- <-. split; [lia|]. rewrite Nat.sub_diag. reflexivity.
  - apply IH in Hin as [Hle Hlook]. split; [lia|].
    replace (i - start)%nat with (S (i - S start)) by lia. exact Hlook.
Qed.

Lemma scored_lookup (query : list float) (candidates : list (list float))
    (r : SimilarityResult) :
  In r (scored query candidates) ->
  exists c, candidates !! index r = Some c /\ similarity r = cosine query c.
Proof.
  unfold scored, enumerate. intros Hin.
  apply List.in_map_iff in Hin as ([i c] & <- & Hin). cbn [index similarity fst snd].
  exists c. split; [|reflexivity].
  apply combine_seq_lookup in Hin as [_ Hlook]. rewrite Nat.sub_0_r in Hlook. exact Hlook.
Qed.

Lemma NoDup_firstn {A} (n : nat) (l : list A) : List.NoDup l -> List.NoDup (firstn n l).
Proof.
  intros Hl. rewrite <- (firstn_skipn n l) in Hl. apply NoDup_app_remove_r in Hl. exact Hl.
Qed.

Lemma In_firstn_In {A} (n : nat) (l : list A) (x : A) : In x (firstn n l) -> In x l.
Proof.
  intros Hin. rewrite <- (firstn_skipn n l). apply in_or_app. left. exact Hin.
Qed.

Lemma slice_to_length {A} (l : list A) (k : Z) :
  length (slice_to l k)
  = if 0 <=? k then Nat.min (Z.to_nat k) (length l) else (length l - Z.to_nat (- k))%nat.
Proof.
  unfold slice_to. destruct (0 <=? k); rewrite length_firstn; lia.
Qed.

(** With candidates of the query's length the search of both files
    succeeds for every [top_k], also a negative one and also when a score
    is not a number: no candidate is reported twice, every item carries
    the position of a candidate and that candidate's cosine similarity to
    the query, and the number of items is what Python's slice gives --
    [min(top_k, n)] for [top_k >= 0], and all but the last [-top_k] for a
    negative [top_k]. *)
Theorem search_results_integrity (query : list float) (candidates : list (list float))
    (k : Z) :
  List.Forall (fun c => length c = length query) candidates ->
  exists res,
    ClipServer.find_most_similar query candidates k = OK res
    /\ ProductionServer.search_similar
         {| ProductionServer.query_embedding := query;
            ProductionServer.candidate_embeddings := candidates;
            ProductionServer.top_k := k |} = OK res
    /\ List.NoDup (map index res)
    /\ (forall r, In r res ->
          exists c, candidates !! index r = Some c /\ similarity r = cosine query c)
    /\ length res = if 0 <=? k then Nat.min (Z.to_nat k) (length candidates)
                    else (length candidates - Z.to_nat (- k))%nat.
Proof.
  intros Hdim. exists (slice_to (sort_desc similarity (scored query candidates)) k).
  split; [apply find_most_similar_slices; exact Hdim|]. split.
  { unfold ProductionServer.search_similar. cbv zeta.
    cbn [ProductionServer.query_embedding ProductionServer.candidate_embeddings
         ProductionServer.top_k].
    rewrite search_loop_scored by exact Hdim. reflexivity. }
  pose proof (sort_desc_perm similarity (scored query candidates)) as Hperm.
  split; [|split].
  - destruct (slice_to_firstn (sort_desc similarity (scored query candidates)) k) as [n ->].
    rewrite <- firstn_map. apply NoDup_firstn.
    apply (Permutation_NoDup (l := map index (scored query candidates))).
    + apply Permutation_map. symmetry. exact Hperm.
    + rewrite scored_indices. apply seq_NoDup.
  - intros r Hin.
    destruct (slice_to_firstn (sort_desc similarity (scored query candidates)) k)
      as [n Hn].
    rewrite Hn in Hin. apply In_firstn_In in Hin.
    apply scored_lookup. apply (Permutation_in _ Hperm). exact Hin.
  - rewrite slice_to_length, (Permutation_length Hperm), scored_length. reflexivity.
Qed.

Lemma search_results_integrity_witness :
  exists res,
    ClipServer.find_most_similar [f64 1; f64 0]
      [[f64 1; f64 0]; [f64 0; f64 1]; [f64 0; f64 0]] (-1) = OK res
    /\ List.NoDup (map index res)
    /\ length res = 2%nat.
Proof.
  destruct (search_results_integrity [f64 1; f64 0]
              [[f64 1; f64 0]; [f64 0; f64 1]; [f64 0; f64 0]] (-1))
    as (res & Hclip & _ & Hnodup & _ & Hlen).
  - repeat constructor.
  - exists res. split; [exact Hclip|]. split; [exact Hnodup | exact Hlen].
Defined.

(** One candidate whose length differs from the query's fails the whole
    search, whatever [top_k] and however many candidates do match:
    clip_server.py raises the [ValueError] of numpy, production_server.py
    turns it into an [HTTPException] of status 500, and neither returns a
    partial ranking. *)
Theorem search_one_mismatch_fails (query : list float) (candidates : list (list float))
    (k : Z) :
  List.Exists (fun c => length c <> length query) candidates ->
  ClipServer.find_most_similar query candidates k
    = Raise (ValueError "shapes not aligned")
  /\ ProductionServer.search_similar
       {| ProductionServer.query_embedding := query;
          ProductionServer.candidate_embeddings := candidates;
          ProductionServer.top_k := k |}
     = Raise (HTTPException 500 (Str (ValueError "shapes not aligned"))).
Proof.
  intros Hex.
  assert (Hloop : similarities_loop (normalize query) (enumerate candidates) []
                  = Raise (ValueError "shapes not aligned")).
  { apply similarities_loop_mismatch. unfold enumerate. generalize 0%nat as start.
    induction Hex as [c cs Hc | c cs Hex IH]; intros start; simpl.
    - apply List.Exists_cons_hd. exact Hc.
    - apply List.Exists_cons_tl. apply IH. }
  split.
  - unfold ClipServer.find_most_similar. cbv zeta. rewrite Hloop. reflexivity.
  - unfold ProductionServer.search_similar. cbv zeta.
    cbn [ProductionServer.query_embedding ProductionServer.candidate_embeddings
         ProductionServer.top_k].
    rewrite Hloop. reflexivity.
Qed.

Lemma search_one_mismatch_fails_witness :
  ClipServer.find_most_similar [f64 1; f64 0]
    [[f64 1; f64 0]; [f64 0; f64 1]; [f64 1]] 1
  = Raise (ValueError "shapes not aligned").
Proof.
  apply (search_one_mismatch_fails [f64 1; f64 0]
           [[f64 1; f64 0]; [f64 0; f64 1]; [f64 1]] 1).
  apply List.Exists_cons_tl, List.Exists_cons_tl, List.Exists_cons_hd.
  simpl. lia.
Defined.

End SearchFacts.

(** ** Decoding the durable payload *)

Module WireDecoding.
Import Float Wire WireFacts.

Lemma finite32_valid s m e :
  (Z.pos m < 2 ^ 23 /\ e = -149) \/ (2 ^ 23 <= Z.pos m < 2 ^ 24 /\ -149 <= e <= 104) ->
  valid binary32 (S754_finite s m e) = true.
Proof.
  unfold valid, valid_binary, bounded, canonical_mantissa, fexp, emin.
  cbn [prec emax binary32].
  intros Hcases. pose proof (digits2_pos_bounds m) as Hd.
  set (d := Z.pos (digits2_pos m)) in *.
  assert (Hdpos : 0 < d) by (unfold d; lia).
  apply andb_true_iff. rewrite Z.eqb_eq, Z.leb_le.
  destruct Hcases as [[Hm He] | [Hm He]].
  - assert (Hlt : d - 1 < 23).
    { apply (Z.pow_lt_mono_r_iff 2); lia. }
    lia.
  - assert (Hlo : 23 < d) by (apply (Z.pow_lt_mono_r_iff 2); lia).
    assert (Hhi : d - 1 < 24) by (apply (Z.pow_lt_mono_r_iff 2); lia).
    lia.
Qed.

Lemma b32_of_bits_valid (w : Z) : valid binary32 (b32_of_bits w) = true.
Proof.
  unfold b32_of_bits. cbv zeta.
  pose proof (Z.mod_pos_bound (w / 2 ^ 23) 256 ltac:(lia)) as Hex.
  pose proof (Z.mod_pos_bound w (2 ^ 23) ltac:(lia)) as Hm.
  set (ex := (w / 2 ^ 23) mod 256) in *. set (mant := w mod 2 ^ 23) in *.
  destruct (Z.eqb_spec ex 0) as [Hex0 | Hex0].
  - destruct (Z.eqb_spec mant 0) as [Hm0 | Hm0]; [reflexivity|].
    apply finite32_valid. left. rewrite Z2Pos.id by lia. lia.
  - destruct (Z.eqb_spec ex 255) as [Hex255 | Hex255].
    + destruct (mant =? 0); reflexivity.
    + apply finite32_valid. right. rewrite Z2Pos.id by lia.
      pow_constants. lia.
Qed.

Lemma frombuffer_bounded (n : nat) (buf : bytes) :
  (length buf < n)%nat ->
  ((length buf mod 4 = 0)%nat ->
   exists a, frombuffer buf = OK a
     /\ length buf = (4 * length a)%nat
     /\ List.Forall (fun x => valid binary32 x = true) a)
  /\ ((length buf mod 4 <> 0)%nat ->
      frombuffer buf = Raise (ValueError "buffer size must be a multiple of element size")).
Proof.
  revert buf. induction n as [|n IH]; intros buf Hlen; [lia|].
  destruct buf as [|b0 [|b1 [|b2 [|b3 rest]]]].
  - split; [|intros Hne; contradiction Hne; reflexivity].
    intros _. exists []. repeat split. constructor.
  - split; [discriminate | reflexivity].
  - split; [discriminate | reflexivity].
  - split; [discriminate | reflexivity].
  - destruct (IH rest) as [Hok Hbad]; [cbn [length] in Hlen; lia|].
    assert (Hmod : (length (b0 :: b1 :: b2 :: b3 :: rest) mod 4
                    = length rest mod 4)%nat).
    { cbn [length]. replace (S (S (S (S (length rest))))) with (length rest + 1 * 4)%nat
        by lia. apply Nat.Div0.mod_add. }
    rewrite Hmod. cbn [frombuffer]. split.
    + intros Hz. destruct (Hok Hz) as (a & -> & Hl & Hv).
      eexists. split; [reflexivity|]. split; [cbn [length]; lia|].
      constructor; [apply b32_of_bits_valid | exact Hv].
    + intros Hnz. rewrite (Hbad Hnz). reflexivity.
Qed.

Lemma frombuffer_ragged (buf : bytes) :
  (length buf mod 4 <> 0)%nat ->
  frombuffer buf = Raise (ValueError "buffer size must be a multiple of element size").
Proof. apply (frombuffer_bounded (S (length buf))). lia. Qed.

(** [np.frombuffer] decodes exactly the payloads whose size is a
    multiple of four: such a payload gives one float32 per four bytes,
    every one of them a float32 value, so that encoding the decoded
    vector and decoding it again gives the same vector; any other size
    raises a [ValueError]. *)
Lemma frombuffer_outcome (buf : bytes) :
  ((length buf mod 4 = 0)%nat ->
   exists a, frombuffer buf = OK a
     /\ length buf = (4 * length a)%nat
     /\ List.Forall (fun x => valid binary32 x = true) a
     /\ frombuffer (tobytes (astype_float32 a)) = OK a)
  /\ ((length buf mod 4 <> 0)%nat ->
      frombuffer buf = Raise (ValueError "buffer size must be a multiple of element size")).
Proof.
  split; [|apply frombuffer_ragged].
  intros Hz.
  destruct (frombuffer_bounded (S (length buf)) buf) as [Hok _]; [lia|].
  destruct (Hok Hz) as (a & Hrun & Hlen & Hvalid).
  exists a. split; [exact Hrun|]. split; [exact Hlen|]. split; [exact Hvalid|].
  rewrite astype_float32_valid by exact Hvalid. apply frombuffer_tobytes. exact Hvalid.
Qed.

End WireDecoding.

(** ** The cache, further *)

Section CacheAccounting.
Context `{DurableStore} `{Clock}.
Import Wire.

Lemma fast_tier_get_shapes (key : string) (w : World) :
  (memory_cache w !! key = None /\ fast_tier_get key w = (OK None, count_miss w))
  \/ (exists data, fast_tier_get key w = (OK (Some data), count_hit (tick w)))
  \/ fast_tier_get key w = (OK None, count_miss (evict key (tick w))).
Proof.
  unfold fast_tier_get. destruct (memory_cache w !! key) as [[data ts]|]; [|auto].
  destruct (Qltb _ _); eauto.
Qed.

(** Every way a lookup can end, with the world it leaves. *)
Lemma get_shapes (key : string) (w : World) :
  exists w1,
    (w1 = w \/ exists r', w1 = set_redis_client (Some r') w)
    /\ ((cache_enabled w = false /\ _get_from_cache key w = (OK None, w))
        \/ (cache_enabled w = true
            /\ ((exists a, _get_from_cache key w = (OK (Some a), count_hit w1))
                \/ ((exists r payload e, redis_client w = Some r
                       /\ fst (redis_get r key) = OK (Some payload)
                       /\ frombuffer payload = Raise e)
                    /\ _get_from_cache key w = (OK None, count_miss (count_hit w1)))
                \/ _get_from_cache key w = (OK None, count_miss w1)
                \/ (exists data,
                      _get_from_cache key w = (OK (Some data), count_hit (tick w1)))
                \/ _get_from_cache key w = (OK None, count_miss (evict key (tick w1)))))).
Proof.
  destruct (cache_enabled w) eqn:Hen.
  2: { exists w. split; [auto|]. left. split; [reflexivity|]. apply get_disabled. exact Hen. }
  assert (Hfast : forall w1 : World,
             _get_from_cache key w = fast_tier_get key w1 ->
             (exists a, _get_from_cache key w = (OK (Some a), count_hit w1))
             \/ ((exists r payload e, redis_client w = Some r
                    /\ fst (redis_get r key) = OK (Some payload)
                    /\ frombuffer payload = Raise e)
                 /\ _get_from_cache key w = (OK None, count_miss (count_hit w1)))
             \/ _get_from_cache key w = (OK None, count_miss w1)
             \/ (exists data,
                   _get_from_cache key w = (OK (Some data), count_hit (tick w1)))
             \/ _get_from_cache key w = (OK None, count_miss (evict key (tick w1)))).
  { intros w1 ->. destruct (fast_tier_get_shapes key w1) as [[_ ->] | [[data ->] | ->]];
      eauto 8. }
  destruct (redis_client w) as [r|] eqn:Hcl.
  2: { exists w. split; [auto|]. right. split; [reflexivity|].
       apply Hfast. apply get_no_client; assumption. }
  destruct (redis_get r key) as [[[[|b bs]|]|e] r'] eqn:Hget;
    exists (set_redis_client (Some r') w); (split; [eauto|]); right;
    (split; [reflexivity|]).
  - apply Hfast. apply (get_durable_miss key w r r' (Some [])); auto.
  - destruct (frombuffer (b :: bs)) as [a|e] eqn:Hbuf.
    + left. exists a. apply (get_durable_hit key w r r' (b :: bs) a); auto; discriminate.
    + right. left. split.
      * exists r, (b :: bs), e. rewrite Hget. auto.
      * apply (get_durable_garbled key w r r' (b :: bs) e); auto; discriminate.
  - apply Hfast. apply (get_durable_miss key w r r' None); auto.
  - right. right. left. apply (get_durable_raises key w r r' e); assumption.
Qed.

(** Every way a write can end. *)
Lemma store_shapes (key : string) (v : Np.ndarray) (w : World) :
  exists w1,
    (w1 = w \/ exists r', w1 = set_redis_client (Some r') w)
    /\ (_store_in_cache key v w = (OK tt, w1)
        \/ _store_in_cache key v w
           = (OK tt, remember key v (time_at (ticks w)) (tick w1))).
Proof.
  destruct (cache_enabled w) eqn:Hen.
  2: { exists w. split; [auto|]. left. apply store_disabled. exact Hen. }
  destruct (redis_client w) as [r|] eqn:Hcl.
  2: { exists w. split; [auto|]. rewrite store_no_client by assumption.
       unfold fast_tier_put. destruct (_ <? _); auto. }
  destruct (redis_setex r key (cache_ttl w) (tobytes (astype_float32 v)))
    as [[[]|e] r'] eqn:Hset; exists (set_redis_client (Some r') w); (split; [eauto|]).
  - rewrite (store_durable_ok key v w r r') by assumption.
    unfold fast_tier_put. destruct (_ <? _); auto.
  - left. apply (store_durable_raises key v w r r' e); assumption.
Qed.

Lemma get_effects (key : string) (w : World) :
  exists answer w', _get_from_cache key w = (OK answer, w')
    /\ request_count w' = request_count w
    /\ cache_enabled w' = cache_enabled w
    /\ (cache_enabled w = false -> answer = None /\ w' = w)
    /\ (cache_enabled w = true ->
        match answer with
        | Some _ => EMBEDDING_CACHE_HITS w' = S (EMBEDDING_CACHE_HITS w)
                    /\ EMBEDDING_CACHE_MISSES w' = EMBEDDING_CACHE_MISSES w
        | None => EMBEDDING_CACHE_MISSES w' = S (EMBEDDING_CACHE_MISSES w)
                  /\ (EMBEDDING_CACHE_HITS w' = EMBEDDING_CACHE_HITS w
                      \/ EMBEDDING_CACHE_HITS w' = S (EMBEDDING_CACHE_HITS w)
                         /\ exists r payload e, redis_client w = Some r
                              /\ fst (redis_get r key) = OK (Some payload)
                              /\ frombuffer payload = Raise e)
        end).
Proof.
  destruct (get_shapes key w) as (w1 & Hw1 & Hshape).
  assert (Hrc : request_count w1 = request_count w
                /\ cache_enabled w1 = cache_enabled w
                /\ EMBEDDING_CACHE_HITS w1 = EMBEDDING_CACHE_HITS w
                /\ EMBEDDING_CACHE_MISSES w1 = EMBEDDING_CACHE_MISSES w).
  { destruct Hw1 as [-> | [r' ->]]; auto. }
  destruct Hrc as (Hrc & Hen1 & Hh & Hm).
  destruct Hshape as [[Hen ->] | [Hen [[a ->] | [[Hbad ->] | [-> | [[data ->] | ->]]]]]];
    eexists _, _; (split; [reflexivity|]); cbn;
    (split; [auto|]); (split; [auto|]);
    (split; [intros Hoff; try congruence; auto|]);
    intros Hon; try congruence; rewrite ?Hh, ?Hm; auto.
Qed.

Lemma store_effects (key : string) (v : Np.ndarray) (w : World) :
  exists w', _store_in_cache key v w = (OK tt, w')
    /\ request_count w' = request_count w
    /\ cache_enabled w' = cache_enabled w
    /\ EMBEDDING_CACHE_HITS w' = EMBEDDING_CACHE_HITS w
    /\ EMBEDDING_CACHE_MISSES w' = EMBEDDING_CACHE_MISSES w.
Proof.
  destruct (store_shapes key v w) as (w1 & Hw1 & [-> | ->]);
    eexists; (split; [reflexivity|]); destruct Hw1 as [-> | [r' ->]]; cbn; auto.
Qed.


(** A durable payload whose size is not a multiple of four is counted
    as a hit and as a miss, and the lookup answers absent without
    reading the clock or the fast tier, whatever the fast tier holds
    under the key. *)
Theorem garbled_payload_counts_twice (key : string) (w : World) (r : Redis)
    (payload : bytes) :
  cache_enabled w = true -> redis_client w = Some r ->
  fst (redis_get r key) = OK (Some payload) ->
  (length payload mod 4 <> 0)%nat ->
  exists w', _get_from_cache key w = (OK None, w')
    /\ EMBEDDING_CACHE_HITS w' = S (EMBEDDING_CACHE_HITS w)
    /\ EMBEDDING_CACHE_MISSES w' = S (EMBEDDING_CACHE_MISSES w)
    /\ memory_cache w' = memory_cache w
    /\ ticks w' = ticks w.
Proof.
  intros Hen Hcl Hres Hragged.
  destruct (redis_get r key) as [res r'] eqn:Hget. simpl in Hres. subst res.
  rewrite (get_durable_garbled key w r r' payload
             (ValueError "buffer size must be a multiple of element size"));
    try assumption.
  - eexists. split; [reflexivity|]. auto.
  - intros ->. apply Hragged. reflexivity.
  - apply WireDecoding.frombuffer_ragged. exact Hragged.
Qed.

(** A durable payload of a positive multiple of four bytes is a hit:
    the lookup returns one float32 component per four bytes, counts a hit
    and no miss, and does not read the clock or the fast tier; storing
    the returned vector would write a payload that decodes to the same
    vector. *)
Theorem durable_payload_decodes (key : string) (w : World) (r : Redis)
    (payload : bytes) :
  cache_enabled w = true -> redis_client w = Some r ->
  fst (redis_get r key) = OK (Some payload) ->
  payload <> [] -> (length payload mod 4 = 0)%nat ->
  exists a w', _get_from_cache key w = (OK (Some a), w')
    /\ length payload = (4 * length a)%nat
    /\ List.Forall (fun x => Float.valid Float.binary32 x = true) a
    /\ frombuffer (tobytes (astype_float32 a)) = OK a
    /\ EMBEDDING_CACHE_HITS w' = S (EMBEDDING_CACHE_HITS w)
    /\ EMBEDDING_CACHE_MISSES w' = EMBEDDING_CACHE_MISSES w
    /\ memory_cache w' = memory_cache w
    /\ ticks w' = ticks w.
Proof.
  intros Hen Hcl Hres Hne Hmod.
  destruct (redis_get r key) as [res r'] eqn:Hget. simpl in Hres. subst res.
  destruct (WireDecoding.frombuffer_outcome payload) as [Hok _].
  destruct (Hok Hmod) as (a & Hbuf & Hlen & Hvalid & Hagain).
  rewrite (get_durable_hit key w r r' payload a); try assumption.
  exists a. eexists. split; [reflexivity|]. auto 10.
Qed.

(** Without a Redis client and with room in the fast tier, a write
    followed by a lookup of the same key returns the very array that was
    written while the entry is younger than [cache_ttl], and nothing, the
    entry evicted, once its age has reached [cache_ttl]; the entries under
    other keys are left as they were. *)
Theorem fast_tier_round_trip (key : string) (v : Np.ndarray) (w : World) :
  cache_enabled w = true -> redis_client w = None ->
  Z.of_nat (size (memory_cache w)) < max_memory_cache_size w ->
  let w1 := snd (_store_in_cache key v w) in
  let age := (time_at (S (ticks w)) - time_at (ticks w))%Q in
  ((age < inject_Z (cache_ttl w))%Q -> fst (_get_from_cache key w1) = OK (Some v))
  /\ ((inject_Z (cache_ttl w) <= age)%Q ->
      fst (_get_from_cache key w1) = OK None
      /\ memory_cache (snd (_get_from_cache key w1)) !! key = None)
  /\ (forall key', key' <> key -> memory_cache w1 !! key' = memory_cache w !! key').
Proof.
  intros Hen Hcl Hroom w1 age.
  assert (Hw1 : w1 = remember key v (time_at (ticks w)) (tick w)).
  { unfold w1. rewrite store_no_client by assumption. unfold fast_tier_put.
    apply Z.ltb_lt in Hroom. rewrite Hroom. reflexivity. }
  assert (Hget : _get_from_cache key w1 = fast_tier_get key w1).
  { apply get_no_client; rewrite Hw1; assumption. }
  assert (Hlook : memory_cache w1 !! key = Some (v, time_at (ticks w))).
  { rewrite Hw1. cbn. apply lookup_insert_eq. }
  rewrite Hget. unfold fast_tier_get. rewrite Hlook.
  replace (ticks w1) with (S (ticks w)) by (rewrite Hw1; reflexivity).
  replace (cache_ttl w1) with (cache_ttl w) by (rewrite Hw1; reflexivity).
  fold age. split; [|split].
  - intros Hfresh. apply Qltb_lt in Hfresh. rewrite Hfresh. reflexivity.
  - intros Hold. apply Qltb_ge in Hold. rewrite Hold. split; [reflexivity|].
    cbn. apply lookup_delete_eq.
  - intros key' Hne. rewrite Hw1. cbn. apply lookup_insert_ne. congruence.
Qed.

End CacheAccounting.


Lemma garbled_payload_counts_twice_witness :
  memory_cache (dict_warm {[ "k" := [Byte.x00; Byte.x00; Byte.x80] ]} 10) !! "k"
    = Some (sample_vector, 0%Q)
  /\ exists w',
       @_get_from_cache dict_store sample_clock "k"
         (dict_warm {[ "k" := [Byte.x00; Byte.x00; Byte.x80] ]} 10) = (OK None, w')
       /\ EMBEDDING_CACHE_HITS w' = 1%nat
       /\ EMBEDDING_CACHE_MISSES w' = 1%nat.
Proof.
  split; [reflexivity|].
  destruct (@garbled_payload_counts_twice dict_store sample_clock "k"
              (dict_warm {[ "k" := [Byte.x00; Byte.x00; Byte.x80] ]} 10)
              {[ "k" := [Byte.x00; Byte.x00; Byte.x80] ]}
              [Byte.x00; Byte.x00; Byte.x80])
    as (w' & Hget & Hhits & Hmisses & _).
  - reflexivity.
  - reflexivity.
  - vm_compute. reflexivity.
  - vm_compute. discriminate.
  - exists w'. split; [exact Hget|]. split; [exact Hhits | exact Hmisses].
Defined.

Lemma durable_payload_decodes_witness :
  exists a w',
    @_get_from_cache dict_store sample_clock "k"
      (dict_warm {[ "k" := [Byte.x00; Byte.x00; Byte.x80; Byte.x3f] ]} 100)
    = (OK (Some a), w')
    /\ length a = 1%nat
    /\ ticks w' = 100%nat.
Proof.
  destruct (@durable_payload_decodes dict_store sample_clock "k"
              (dict_warm {[ "k" := [Byte.x00; Byte.x00; Byte.x80; Byte.x3f] ]} 100)
              {[ "k" := [Byte.x00; Byte.x00; Byte.x80; Byte.x3f] ]}
              [Byte.x00; Byte.x00; Byte.x80; Byte.x3f])
    as (a & w' & Hget & Hlen & _ & _ & _ & _ & _ & Hticks).
  - reflexivity.
  - reflexivity.
  - vm_compute. reflexivity.
  - discriminate.
  - reflexivity.
  - exists a, w'. split; [exact Hget|]. split; [cbn [length] in Hlen; lia | exact Hticks].
Defined.

Lemma fast_tier_round_trip_witness :
  fst (@_get_from_cache down_store sample_clock "j"
         (snd (@_store_in_cache down_store sample_clock "j" [f64 1; f64 2]
                 clientless_warm)))
  = OK (Some [f64 1; f64 2]).
Proof.
  destruct (@fast_tier_round_trip down_store sample_clock "j" [f64 1; f64 2]
              clientless_warm eq_refl eq_refl) as (Hfresh & _).
  - vm_compute. reflexivity.
  - apply Hfresh. vm_compute. reflexivity.
Defined.

(** ** The encoders, further *)

Section EncoderFacts.
Context `{DurableStore} `{EmbeddingOracle} `{Clock}.

Ltac world_fields :=
  cbn [memory_cache ticks cache_ttl cache_enabled redis_client max_memory_cache_size
       request_count EMBEDDING_CACHE_HITS EMBEDDING_CACHE_MISSES
       remember tick count_miss count_hit count_request evict
       set_counters set_memory_cache set_redis_client].

(** [encode_image] on a service with the cache enabled, under the key
    it settles on. *)
Lemma encode_image_enabled (image_data : string) (cache_key : option string)
    (w : World) (key : string) :
  cache_enabled w = true ->
  key = (if truthy cache_key then default "" cache_key
         else _get_cache_key image_data "image") ->
  encode_image image_data cache_key w =
    match _get_from_cache key w with
    | (OK (Some cached), w1) => (OK cached, w1)
    | (OK None, w1) =>
        match clip_encode_image image_data with
        | OK e => (OK e, count_request (snd (_store_in_cache key e (tick (tick w1)))))
        | Raise e0 =>
            (Raise (HTTPException 400 (Fmt "Image processing failed: " e0)), tick w1)
        end
    | (Raise x, w1) => (Raise x, w1)
    end.
Proof.
  intros Hen ->. unfold encode_image.
  unfold bind, get_world, ret, try_except, lift, raise, time_time,
    request_count_inc, modify.
  rewrite Hen. cbn [andb].
  destruct (truthy cache_key) eqn:Htruthy.
  - destruct (_get_from_cache (default "" cache_key) w) as [[[c|]|x] w1];
      try reflexivity.
    destruct (clip_encode_image image_data) as [e|e0]; [|reflexivity].
    rewrite Htruthy.
    destruct (store_outcome (default "" cache_key) e (tick (tick w1))) as (w2 & -> & _).
    reflexivity.
  - destruct (_get_from_cache (_get_cache_key image_data "image") w) as [[[c|]|x] w1];
      try reflexivity.
    destruct (clip_encode_image image_data) as [e|e0]; [|reflexivity].
    rewrite derived_key_truthy. cbn [default from_option id].
    destruct (store_outcome (_get_cache_key image_data "image") e (tick (tick w1)))
      as (w2 & -> & _).
    reflexivity.
Qed.

Lemma encode_image_disabled (image_data : string) (cache_key : option string)
    (w : World) :
  cache_enabled w = false ->
  encode_image image_data cache_key w =
    match clip_encode_image image_data with
    | OK e => (OK e, count_request (tick (tick w)))
    | Raise e0 => (Raise (HTTPException 400 (Fmt "Image processing failed: " e0)), tick w)
    end.
Proof.
  intros Hen. unfold encode_image.
  unfold bind, try_except, get_world, ret, lift, raise, time_time, request_count_inc, modify.
  rewrite Hen. cbn [andb]. destruct (clip_encode_image image_data); reflexivity.
Qed.

(** How a call of [encode_image] ends, with the counters it moves. *)
Lemma encode_image_ends (image_data : string) (cache_key : option string) (w : World) :
  exists w',
    (exists e, encode_image image_data cache_key w = (OK e, w')
       /\ clip_encode_image image_data = OK e
       /\ request_count w' = S (request_count w)
       /\ (cache_enabled w = true ->
           EMBEDDING_CACHE_MISSES w' = S (EMBEDDING_CACHE_MISSES w)))
    \/ (exists e, encode_image image_data cache_key w = (OK e, w')
          /\ cache_enabled w = true
          /\ request_count w' = request_count w
          /\ EMBEDDING_CACHE_HITS w' = S (EMBEDDING_CACHE_HITS w)
          /\ EMBEDDING_CACHE_MISSES w' = EMBEDDING_CACHE_MISSES w)
    \/ (exists e0, encode_image image_data cache_key w
                   = (Raise (HTTPException 400 (Fmt "Image processing failed: " e0)), w')
          /\ clip_encode_image image_data = Raise e0
          /\ request_count w' = request_count w).
Proof.
  destruct (cache_enabled w) eqn:Hen.
  - rewrite (encode_image_enabled image_data cache_key w _ Hen eq_refl).
    match goal with |- context [_get_from_cache ?k w] =>
      destruct (get_effects k w) as (answer & w1 & -> & Hrc & Hen1 & _ & Hcount);
      set (key := k) in *
    end.
    specialize (Hcount Hen). destruct answer as [c|].
    + exists w1. right. left. exists c. destruct Hcount as [Hh Hm]. auto.
    + destruct Hcount as [Hm _].
      destruct (clip_encode_image image_data) as [e|e0] eqn:Horacle.
      * destruct (store_effects key e (tick (tick w1))) as (w2 & Hput & Hrc2 & _ & _ & Hm2).
        rewrite Hput. cbn [snd]. eexists. left. exists e.
        split; [reflexivity|]. split; [reflexivity|]. world_fields.
        rewrite Hrc2, Hm2. world_fields. rewrite Hrc, Hm. auto.
      * eexists. right. right. exists e0. split; [reflexivity|].
        split; [reflexivity|]. world_fields. exact Hrc.
  - rewrite (encode_image_disabled image_data cache_key w Hen).
    destruct (clip_encode_image image_data) as [e|e0] eqn:Horacle.
    + eexists. left. exists e. split; [reflexivity|]. split; [reflexivity|].
      split; [reflexivity | discriminate].
    + eexists. right. right. exists e0. split; [reflexivity|]. split; reflexivity.
Qed.

(** [encode_image] raises only when the model run raises, and then an
    [HTTPException] of status 400 that carries the model's error; a failed
    call is not counted in [request_count].  With the cache disabled a
    failing model run always surfaces. *)
Theorem encode_image_fails_with_the_model (image_data : string)
    (cache_key : option string) (w : World) :
  (forall x w', encode_image image_data cache_key w = (Raise x, w') ->
     exists e0, clip_encode_image image_data = Raise e0
       /\ x = HTTPException 400 (Fmt "Image processing failed: " e0)
       /\ request_count w' = request_count w)
  /\ (forall e0, clip_encode_image image_data = Raise e0 -> cache_enabled w = false ->
        encode_image image_data cache_key w
        = (Raise (HTTPException 400 (Fmt "Image processing failed: " e0)), tick w)).
Proof.
  split.
  - intros x w' Hrun.
    destruct (encode_image_ends image_data cache_key w)
      as (w1 & [(e & Hok & _) | [(e & Hok & _) | (e0 & Hbad & Horacle & Hrc)]]).
    + rewrite Hok in Hrun. discriminate Hrun.
    + rewrite Hok in Hrun. discriminate Hrun.
    + rewrite Hbad in Hrun. injection Hrun as <- <-. exists e0. auto.
  - intros e0 Horacle Hen. rewrite (encode_image_disabled image_data cache_key w Hen), Horacle.
    reflexivity.
Qed.


(** The first call under a key, without a Redis client: the model is
    run and its vector stored in the fast tier, stamped with the third
    clock reading of the call. *)
Lemma encode_image_first_call (image_data : string) (cache_key : option string)
    (w : World) (key : string) (e : Np.ndarray) :
  cache_enabled w = true -> redis_client w = None ->
  key = (if truthy cache_key then default "" cache_key
         else _get_cache_key image_data "image") ->
  memory_cache w !! key = None ->
  Z.of_nat (size (memory_cache w)) < max_memory_cache_size w ->
  clip_encode_image image_data = OK e ->
  encode_image image_data cache_key w
  = (OK e, count_request (remember key e (time_at (S (S (ticks w))))
                            (tick (tick (tick (count_miss w)))))).
Proof.
  intros Hen Hcl Hkey Hmiss Hroom Horacle.
  rewrite (encode_image_enabled image_data cache_key w key Hen Hkey).
  rewrite (get_no_client key w Hen Hcl). unfold fast_tier_get. rewrite Hmiss.
  cbv beta iota. rewrite Horacle.
  rewrite store_no_client by (world_fields; assumption).
  unfold fast_tier_put. world_fields.
  apply Z.ltb_lt in Hroom. rewrite Hroom. reflexivity.
Qed.

(** Without a Redis client, with room in the fast tier and nothing yet
    under the key, a first call runs the model and a second call, made
    while the entry is younger than [cache_ttl], returns the same vector
    from the fast tier: the two calls together count one model run, one
    miss and one hit. *)
Theorem encode_image_memoized (image_data : string) (cache_key : option string)
    (w : World) (key : string) (e : Np.ndarray) :
  cache_enabled w = true -> redis_client w = None ->
  key = (if truthy cache_key then default "" cache_key
         else _get_cache_key image_data "image") ->
  memory_cache w !! key = None ->
  Z.of_nat (size (memory_cache w)) < max_memory_cache_size w ->
  clip_encode_image image_data = OK e ->
  (time_at (3 + ticks w) - time_at (2 + ticks w) < inject_Z (cache_ttl w))%Q ->
  exists w1 w2,
    encode_image image_data cache_key w = (OK e, w1)
    /\ encode_image image_data cache_key w1 = (OK e, w2)
    /\ memory_cache w1 !! key = Some (e, time_at (2 + ticks w))
    /\ request_count w2 = S (request_count w)
    /\ EMBEDDING_CACHE_MISSES w2 = S (EMBEDDING_CACHE_MISSES w)
    /\ EMBEDDING_CACHE_HITS w2 = S (EMBEDDING_CACHE_HITS w).
Proof.
  intros Hen Hcl Hkey Hmiss Hroom Horacle Hfresh.
  simpl Nat.add in Hfresh |- *.
  pose proof (encode_image_first_call image_data cache_key w key e
                Hen Hcl Hkey Hmiss Hroom Horacle) as Hfirst.
  set (w1 := count_request (remember key e (time_at (S (S (ticks w))))
                              (tick (tick (tick (count_miss w)))))) in *.
  assert (Hlook : memory_cache w1 !! key = Some (e, time_at (S (S (ticks w))))).
  { unfold w1. world_fields. apply lookup_insert_eq. }
  exists w1, (count_hit (tick w1)). split; [exact Hfirst|]. split.
  - rewrite (encode_image_enabled image_data cache_key w1 key) by (exact Hen || exact Hkey).
    rewrite (get_no_client key w1) by (exact Hen || exact Hcl).
    unfold fast_tier_get. rewrite Hlook.
    change (ticks w1) with (S (S (S (ticks w)))). change (cache_ttl w1) with (cache_ttl w).
    apply Qltb_lt in Hfresh. rewrite Hfresh. reflexivity.
  - split; [exact Hlook|]. split; [reflexivity|]. split; reflexivity.
Qed.

(** [encode_text] on one text, on a service with the cache enabled,
    under the key it settles on. *)
Lemma encode_text_single_enabled (text : string) (cache_key : option string)
    (w : World) (key : string) :
  cache_enabled w = true ->
  key = (if truthy cache_key then default "" cache_key
         else _get_cache_key text "text") ->
  encode_text (Single text) cache_key w =
    match _get_from_cache key w with
    | (OK (Some cached), w1) => (OK [cached], w1)
    | (OK None, w1) =>
        match clip_encode_text [text] with
        | OK rows =>
            match row0 rows with
            | OK e0 =>
                (OK rows, count_request (snd (_store_in_cache key e0 (tick (tick w1)))))
            | Raise x => (Raise x, tick (tick w1))
            end
        | Raise e0 =>
            (Raise (HTTPException 500 (Fmt "Text encoding failed: " e0)), tick w1)
        end
    | (Raise x, w1) => (Raise x, w1)
    end.
Proof.
  intros Hen ->. unfold encode_text.
  unfold bind, get_world, ret, try_except, lift, raise, time_time,
    request_count_inc, modify.
  rewrite Hen. cbn [andb hd].
  destruct (truthy cache_key) eqn:Htruthy.
  - destruct (_get_from_cache (default "" cache_key) w) as [[[c|]|x] w1];
      try reflexivity.
    destruct (clip_encode_text [text]) as [rows|e0]; [|reflexivity].
    rewrite Htruthy. destruct (row0 rows) as [e0|x]; [|reflexivity].
    destruct (store_outcome (default "" cache_key) e0 (tick (tick w1))) as (w2 & -> & _).
    reflexivity.
  - cbn [default from_option id].
    destruct (_get_from_cache (_get_cache_key text "text") w) as [[[c|]|x] w1];
      try reflexivity.
    destruct (clip_encode_text [text]) as [rows|e0]; [|reflexivity].
    rewrite derived_key_truthy. destruct (row0 rows) as [e0|x]; [|reflexivity].
    cbn [default from_option id].
    destruct (store_outcome (_get_cache_key text "text") e0 (tick (tick w1)))
      as (w2 & -> & _).
    reflexivity.
Qed.

(** A [cache_key] the caller gives is used as it is, for texts and for
    images alike: after an image has been encoded under such a key, a
    text encoded under the same key, while the entry is fresh, is
    answered with the image's vector, whatever the text, and the model
    is not run for it. *)
Theorem explicit_keys_shared_across_modalities (image_data text key : string)
    (w : World) (e : Np.ndarray) :
  cache_enabled w = true -> redis_client w = None ->
  truthy (Some key) = true ->
  memory_cache w !! key = None ->
  Z.of_nat (size (memory_cache w)) < max_memory_cache_size w ->
  clip_encode_image image_data = OK e ->
  (time_at (3 + ticks w) - time_at (2 + ticks w) < inject_Z (cache_ttl w))%Q ->
  exists w1 w2,
    encode_image image_data (Some key) w = (OK e, w1)
    /\ encode_text (Single text) (Some key) w1 = (OK [e], w2)
    /\ request_count w2 = S (request_count w)
    /\ EMBEDDING_CACHE_HITS w2 = S (EMBEDDING_CACHE_HITS w).
Proof.
  intros Hen Hcl Htruthy Hmiss Hroom Horacle Hfresh.
  simpl Nat.add in Hfresh.
  assert (Hkey : key = (if truthy (Some key) then default "" (Some key)
                        else _get_cache_key image_data "image")).
  { rewrite Htruthy. reflexivity. }
  pose proof (encode_image_first_call image_data (Some key) w key e
                Hen Hcl Hkey Hmiss Hroom Horacle) as Hfirst.
  set (w1 := count_request (remember key e (time_at (S (S (ticks w))))
                              (tick (tick (tick (count_miss w)))))) in *.
  assert (Hlook : memory_cache w1 !! key = Some (e, time_at (S (S (ticks w))))).
  { unfold w1. world_fields. apply lookup_insert_eq. }
  exists w1, (count_hit (tick w1)). split; [exact Hfirst|].
  split; [|split; reflexivity].
  rewrite (encode_text_single_enabled text (Some key) w1 key)
    by (exact Hen || (rewrite Htruthy; reflexivity)).
  rewrite (get_no_client key w1) by (exact Hen || exact Hcl).
  unfold fast_tier_get. rewrite Hlook.
  change (ticks w1) with (S (S (S (ticks w)))). change (cache_ttl w1) with (cache_ttl w).
  apply Qltb_lt in Hfresh. rewrite Hfresh. reflexivity.
Qed.

(** [encode_text] on a list of texts, whatever [cache_key] is. *)
Lemma encode_text_many (texts : list string) (cache_key : option string) (w : World) :
  encode_text (Many texts) cache_key w =
    match clip_encode_text texts with
    | OK rows => (OK rows, count_request (tick (tick w)))
    | Raise e0 => (Raise (HTTPException 500 (Fmt "Text encoding failed: " e0)), tick w)
    end.
Proof.
  unfold encode_text.
  unfold bind, try_except, get_world, ret, lift, raise, time_time, request_count_inc, modify.
  cbn [andb]. destruct (clip_encode_text texts); reflexivity.
Qed.

(** A list of texts goes past both cache tiers, also with the cache
    enabled and a [cache_key] given: nothing is looked up, nothing is
    stored, no hit and no miss is counted; the call returns the rows of
    the model run or an [HTTPException] of status 500 that carries the
    model's error, and counts a request only when the run succeeds.  The
    text batch is such a call on the texts of the items. *)
Theorem text_lists_bypass_cache (texts : list string) (cache_key : option string)
    (w : World) :
  let out := encode_text (Many texts) cache_key w in
  memory_cache (snd out) = memory_cache w
  /\ redis_client (snd out) = redis_client w
  /\ EMBEDDING_CACHE_HITS (snd out) = EMBEDDING_CACHE_HITS w
  /\ EMBEDDING_CACHE_MISSES (snd out) = EMBEDDING_CACHE_MISSES w
  /\ fst out = match clip_encode_text texts with
               | OK rows => OK rows
               | Raise e0 => Raise (HTTPException 500 (Fmt "Text encoding failed: " e0))
               end
  /\ request_count (snd out) = match clip_encode_text texts with
                               | OK _ => S (request_count w)
                               | Raise _ => request_count w
                               end
  /\ forall items, batch_encode items "text" w
                   = encode_text (Many (map item_text items)) None w.
Proof.
  cbv zeta. rewrite encode_text_many.
  destruct (clip_encode_text texts); repeat split; reflexivity.
Qed.

(** A failing image batch: some item is the first whose model run
    fails, the items before it were encoded, and the error is that
    item's. *)
Lemma encode_each_failure (items : list item) (w : World) (x : exn) (w' : World) :
  encode_each items w = (Raise x, w') ->
  exists (i : nat) (it : item) (e0 : exn) (res : list Np.ndarray) (wi : World),
    items !! i = Some it
    /\ encode_each (take i items) w = (OK res, wi)
    /\ length res = i
    /\ clip_encode_image (item_image it) = Raise e0
    /\ x = HTTPException 400 (Fmt "Image processing failed: " e0).
Proof.
  revert w. induction items as [|it0 rest IH]; intros w Hrun; [discriminate Hrun|].
  cbn [encode_each] in Hrun. unfold bind in Hrun.
  destruct (encode_image_ends (item_image it0) (item_cache_key it0) w)
    as (w1 & [(e & Hok & _) | [(e & Hok & _) | (e0 & Hbad & Horacle & _)]]).
  - rewrite Hok in Hrun.
    destruct (encode_each rest w1) as [[es|x2] w2] eqn:Hrest; [discriminate Hrun|].
    injection Hrun as <- <-.
    destruct (IH w1 Hrest) as (i & it & e0 & res & wi & Hit & Hpre & Hlen & Horacle & Hx).
    exists (S i), it, e0, (e :: res), wi. split; [exact Hit|]. split.
    { cbn [take encode_each]. unfold bind. rewrite Hok, Hpre. reflexivity. }
    split; [cbn [length]; congruence|]. split; assumption.
  - rewrite Hok in Hrun.
    destruct (encode_each rest w1) as [[es|x2] w2] eqn:Hrest; [discriminate Hrun|].
    injection Hrun as <- <-.
    destruct (IH w1 Hrest) as (i & it & e0 & res & wi & Hit & Hpre & Hlen & Horacle & Hx).
    exists (S i), it, e0, (e :: res), wi. split; [exact Hit|]. split.
    { cbn [take encode_each]. unfold bind. rewrite Hok, Hpre. reflexivity. }
    split; [cbn [length]; congruence|]. split; assumption.
  - rewrite Hbad in Hrun. injection Hrun as <- <-.
    exists 0%nat, it0, e0, [], w. repeat split; [exact Horacle].
Qed.

Lemma encode_each_failure_image (items : list item) (w : World) (x : exn) (w' : World) :
  batch_encode items "image" w = (Raise x, w') ->
  exists e0, x = HTTPException 400 (Fmt "Image processing failed: " e0).
Proof.
  intros Hrun. unfold batch_encode in Hrun. cbn [String.eqb Ascii.eqb Bool.eqb] in Hrun.
  rewrite batch_image_loop_encode_each in Hrun.
  destruct (encode_each items w) as [[es|x1] w1] eqn:Heach; [discriminate Hrun|].
  injection Hrun as <- <-.
  apply encode_each_failure in Heach as (_ & _ & e0 & _ & _ & _ & _ & _ & _ & Hx).
  exists e0. exact Hx.
Qed.

(** An image batch fails as a whole at the first item whose model run
    fails: the items before it have been encoded, their vectors are not
    returned, and the error is the [HTTPException] of status 400 of that
    item.  A [batch_type] other than ["text"] and ["image"] is refused
    with status 400 before anything is encoded. *)
Theorem batch_encode_failure (items : list item) (batch_type : string) (w : World) :
  (forall x w', batch_encode items "image" w = (Raise x, w') ->
     exists (i : nat) (it : item) (e0 : exn) (res : list Np.ndarray) (wi : World),
       items !! i = Some it
       /\ encode_each (take i items) w = (OK res, wi)
       /\ length res = i
       /\ clip_encode_image (item_image it) = Raise e0
       /\ x = HTTPException 400 (Fmt "Image processing failed: " e0))
  /\ (String.eqb batch_type "text" = false -> String.eqb batch_type "image" = false ->
      batch_encode items batch_type w
      = (Raise (HTTPException 400 (Lit "Invalid batch_type")), w)).
Proof.
  split.
  - intros x w' Hrun. apply (encode_each_failure items w x w').
    unfold batch_encode in Hrun. cbn [String.eqb Ascii.eqb Bool.eqb] in Hrun.
    rewrite batch_image_loop_encode_each in Hrun.
    destruct (encode_each items w) as [[es|x1] w1]; [discriminate Hrun | exact Hrun].
  - intros Htext Himage. unfold batch_encode. rewrite Htext, Himage. reflexivity.
Qed.

End EncoderFacts.

Lemma encode_image_fails_with_the_model_witness :
  exists e0,
    @clip_encode_image sample_oracle "z" = Raise e0
    /\ fst (@encode_image dict_store sample_oracle sample_clock "z" None (cold_world 1000))
       = Raise (HTTPException 400 (Fmt "Image processing failed: " e0)).
Proof.
  destruct (@encode_image_fails_with_the_model dict_store sample_oracle sample_clock
              "z" None (cold_world 1000)) as [Hraise _].
  destruct (Hraise
              (HTTPException 400
                 (Fmt "Image processing failed: "
                    (ExternalError "PIL" "cannot identify image file")))
              (snd (@encode_image dict_store sample_oracle sample_clock "z" None
                      (cold_world 1000))))
    as (e0 & Horacle & Hx & _); [vm_compute; reflexivity|].
  exists e0. split; [exact Horacle|]. rewrite <- Hx. vm_compute. reflexivity.
Defined.


Lemma encode_image_memoized_witness :
  exists w1 w2,
    @encode_image down_store sample_oracle sample_clock "x" None
      (@fresh_world down_store true None 60 10) = (OK [f32 1; f32 0], w1)
    /\ @encode_image down_store sample_oracle sample_clock "x" None w1
       = (OK [f32 1; f32 0], w2)
    /\ request_count w2 = 1%nat.
Proof.
  destruct (@encode_image_memoized down_store sample_oracle sample_clock "x" None
              (@fresh_world down_store true None 60 10) "image:x" [f32 1; f32 0])
    as (w1 & w2 & Hfirst & Hsecond & _ & Hrc & _).
  - reflexivity.
  - reflexivity.
  - reflexivity.
  - reflexivity.
  - vm_compute. reflexivity.
  - reflexivity.
  - vm_compute. reflexivity.
  - exists w1, w2. split; [exact Hfirst|]. split; [exact Hsecond | exact Hrc].
Defined.

Lemma batch_encode_failure_witness :
  exists (i : nat) (res : list Np.ndarray),
    [ItemStr "x"; ItemStr "z"; ItemStr "y"] !! i = Some (ItemStr "z")
    /\ fst (@encode_each dict_store sample_oracle sample_clock
              (take i [ItemStr "x"; ItemStr "z"; ItemStr "y"]) (cold_world 1000)) = OK res
    /\ length res = i.
Proof.
  destruct (@batch_encode_failure dict_store sample_oracle sample_clock
              [ItemStr "x"; ItemStr "z"; ItemStr "y"] "image" (cold_world 1000))
    as [Hraise _].
  destruct (Hraise
              (HTTPException 400
                 (Fmt "Image processing failed: "
                    (ExternalError "PIL" "cannot identify image file")))
              (snd (@batch_encode dict_store sample_oracle sample_clock
                      [ItemStr "x"; ItemStr "z"; ItemStr "y"] "image" (cold_world 1000))))
    as (i & it & e0 & res & wi & Hit & Hpre & Hlen & Horacle & _);
    [vm_compute; reflexivity|].
  exists i, res. split; [|split; [rewrite Hpre; reflexivity | exact Hlen]].
  destruct i as [|[|[|i]]]; cbn in Hit; try discriminate Hit;
    injection Hit as <-; try reflexivity; vm_compute in Horacle; discriminate Horacle.
Defined.

Lemma explicit_keys_shared_across_modalities_witness :
  @clip_encode_text sample_oracle ["y"] = OK [[f32 0; f32 1]]
  /\ exists w1 w2,
       @encode_image down_store sample_oracle sample_clock "x" (Some "shared")
         (@fresh_world down_store true None 60 10) = (OK [f32 1; f32 0], w1)
       /\ @encode_text down_store sample_oracle sample_clock (Single "y") (Some "shared") w1
          = (OK [[f32 1; f32 0]], w2).
Proof.
  split; [reflexivity|].
  destruct (@explicit_keys_shared_across_modalities down_store sample_oracle sample_clock
              "x" "y" "shared" (@fresh_world down_store true None 60 10) [f32 1; f32 0])
    as (w1 & w2 & Himage & Htext & _).
  - reflexivity.
  - reflexivity.
  - reflexivity.
  - reflexivity.
  - vm_compute. reflexivity.
  - reflexivity.
  - vm_compute. reflexivity.
  - exists w1, w2. split; [exact Himage | exact Htext].
Defined.

(** ** The endpoints *)

Section EndpointFacts.
Context `{DurableStore} `{EmbeddingOracle} `{Clock}.
Variable dim : Z.
Import Float.

(** [POST /embed/image]: an image of fewer than ten characters is
    rejected with no effect on the service, also on one that is not
    initialised; a longer one is answered 503 on a service that is not
    initialised; on an initialised service the answer is the vector of
    [encode_image] with the service's dimension, or an [HTTPException] of
    status 500 around the 400 of [encode_image] -- the 400 itself never
    reaches the client. *)
Theorem image_endpoint_statuses (body : ImageEmbeddingRequest.t) :
  ((String.length (ImageEmbeddingRequest.image body) < 10)%nat ->
   forall clip_service,
     post_embed_image dim body clip_service
     = (Raise (RequestValidationError "image"), clip_service))
  /\ ((10 <= String.length (ImageEmbeddingRequest.image body))%nat ->
      post_embed_image dim body None
      = (Raise (HTTPException 503 (Lit "Service not initialized")), None)
      /\ forall w, exists w',
           (exists e,
              encode_image (ImageEmbeddingRequest.image body)
                           (ImageEmbeddingRequest.cache_key body) w = (OK e, w')
              /\ post_embed_image dim body (Some w)
                 = (OK {| ImageEmbeddingResponse.embedding := tolist e;
                          ImageEmbeddingResponse.dimension := dim |}, Some w'))
           \/ (exists e0,
                 clip_encode_image (ImageEmbeddingRequest.image body) = Raise e0
                 /\ post_embed_image dim body (Some w)
                    = (Raise (HTTPException 500
                                (Str (HTTPException 400
                                        (Fmt "Image processing failed: " e0)))),
                       Some w')
                 /\ request_count w' = request_count w)).
Proof.
  unfold post_embed_image, ImageEmbeddingRequest.validate,
    ImageEmbeddingRequest.validate_image.
  split.
  - intros Hshort clip_service. apply Nat.ltb_lt in Hshort. rewrite Hshort. reflexivity.
  - intros Hlong. apply Nat.ltb_ge in Hlong. rewrite Hlong. split; [reflexivity|].
    intros w. unfold embed_image, with_service, try_except, bind, ret, raise.
    destruct (encode_image_ends (ImageEmbeddingRequest.image body)
                (ImageEmbeddingRequest.cache_key body) w)
      as (w' & [(e & Hok & _) | [(e & Hok & _) | (e0 & Hbad & Horacle & Hrc)]]);
      exists w'.
    + left. exists e. rewrite Hok. auto.
    + left. exists e. rewrite Hok. auto.
    + right. exists e0. rewrite Hbad. auto.
Qed.

(** [POST /embed/batch]: more than fifty items, or a [batch_type]
    other than ["text"] and ["image"], are rejected with no effect on the
    service; an accepted image batch that succeeds reports as many
    embeddings as there are items, and the service's dimension; and no
    accepted body is ever answered "Invalid batch_type". *)
Theorem batch_endpoint_counts (items : list item) (batch_type : string) :
  (BatchRequest_valid items batch_type = false ->
   forall clip_service,
     post_embed_batch dim items batch_type clip_service
     = (Raise (RequestValidationError "items or batch_type"), clip_service))
  /\ ((50 < length items)%nat -> BatchRequest_valid items batch_type = false)
  /\ ((length items <= 50)%nat ->
      forall w resp s',
        post_embed_batch dim items "image" (Some w) = (OK resp, s') ->
        BatchResponse.count resp = length items
        /\ length (BatchResponse.embeddings resp) = length items
        /\ BatchResponse.dimension resp = dim)
  /\ (forall clip_service r s',
        post_embed_batch dim items batch_type clip_service = (r, s') ->
        r <> Raise (HTTPException 500
                      (Str (HTTPException 400 (Lit "Invalid batch_type"))))).
Proof.
  split; [|split; [|split]].
  - intros Hbad clip_service. unfold post_embed_batch. rewrite Hbad. reflexivity.
  - intros Hmany. unfold BatchRequest_valid.
    apply Nat.leb_gt in Hmany. rewrite Hmany. reflexivity.
  - intros Hfew w resp s'. unfold post_embed_batch, BatchRequest_valid.
    apply Nat.leb_le in Hfew. rewrite Hfew. cbn [andb orb String.eqb Ascii.eqb Bool.eqb].
    unfold embed_batch, with_service, try_except, bind, ret, raise.
    unfold batch_encode. cbn [String.eqb Ascii.eqb Bool.eqb].
    rewrite batch_image_loop_encode_each.
    destruct (encode_each items w) as [[es|x] w1] eqn:Heach; [|discriminate].
    intros Hrun. injection Hrun as <- _.
    apply encode_each_indexed in Heach as [Hlen _].
    cbn [BatchResponse.count BatchResponse.embeddings BatchResponse.dimension app].
    rewrite length_map. auto.
  - intros clip_service r s'. unfold post_embed_batch.
    destruct (BatchRequest_valid items batch_type) eqn:Hvalid.
    2: { unfold rejected. intros [= <- _]. discriminate. }
    destruct clip_service as [w|]; [|intros [= <- _]; discriminate].
    unfold embed_batch, with_service, try_except, bind, ret, raise.
    unfold BatchRequest_valid in Hvalid.
    apply andb_true_iff in Hvalid as [_ Htype]. apply orb_true_iff in Htype.
    destruct Htype as [Htype | Htype]; apply String.eqb_eq in Htype; subst batch_type.
    + unfold batch_encode. cbn [String.eqb Ascii.eqb Bool.eqb].
      rewrite encode_text_many.
      destruct (clip_encode_text (map item_text items)); intros [= <- _]; discriminate.
    + destruct (batch_encode items "image" w) as [[es|x] w1] eqn:Hrun;
        [intros [= <- _]; discriminate|].
      apply encode_each_failure_image in Hrun as (e0 & ->).
      intros [= <- _]. discriminate.
Qed.

(** [POST /embed/text]: a list body is answered with one vector per
    row of the model run, also when the list has one text, and goes past
    the cache, also with a [cache_key]; its failure is an [HTTPException]
    of status 500 around the 500 of [encode_text].  A [str] body that
    succeeds is answered with a single vector. *)
Theorem text_endpoint_shapes (cache_key : option string) (w : World) :
  (forall texts, exists w',
     memory_cache w' = memory_cache w
     /\ match clip_encode_text texts with
        | OK rows =>
            embed_text dim {| TextEmbeddingRequest.text := inr texts;
                              TextEmbeddingRequest.cache_key := cache_key |} (Some w)
            = (OK {| TextEmbeddingResponse.embeddings :=
                       TextEmbeddingResponse.Rows (map tolist rows);
                     TextEmbeddingResponse.dimension := dim |}, Some w')
        | Raise e0 =>
            embed_text dim {| TextEmbeddingRequest.text := inr texts;
                              TextEmbeddingRequest.cache_key := cache_key |} (Some w)
            = (Raise (HTTPException 500
                        (Str (HTTPException 500 (Fmt "Text encoding failed: " e0)))),
               Some w')
        end)
  /\ (forall text response s',
        embed_text dim {| TextEmbeddingRequest.text := inl text;
                          TextEmbeddingRequest.cache_key := cache_key |} (Some w)
        = (OK response, s') ->
        exists e, TextEmbeddingResponse.embeddings response
                  = TextEmbeddingResponse.One (tolist e)).
Proof.
  split.
  - intros texts.
    unfold embed_text, with_service, try_except, bind, ret, raise.
    cbn [TextEmbeddingRequest.text TextEmbeddingRequest.cache_key].
    rewrite encode_text_many.
    destruct (clip_encode_text texts) as [rows|e0]; eexists; (split; [|reflexivity]);
      reflexivity.
  - intros text response s'.
    unfold embed_text, with_service, try_except, bind, ret, raise, lift.
    cbn [TextEmbeddingRequest.text TextEmbeddingRequest.cache_key].
    destruct (encode_text (Single text) cache_key w) as [[rows|x] w1]; [|discriminate].
    destruct (row0 rows) as [e|x]; [|discriminate].
    intros [= <- _]. exists e. reflexivity.
Qed.

End EndpointFacts.

Lemma image_endpoint_statuses_witness :
  @post_embed_image dict_store sample_oracle sample_clock 512
    {| ImageEmbeddingRequest.image := "short"; ImageEmbeddingRequest.cache_key := None |}
    (Some (cold_world 1000))
  = (Raise (RequestValidationError "image"), Some (cold_world 1000))
  /\ @post_embed_image dict_store sample_oracle sample_clock 512
       {| ImageEmbeddingRequest.image := "0123456789";
          ImageEmbeddingRequest.cache_key := None |} None
     = (Raise (HTTPException 503 (Lit "Service not initialized")), None).
Proof.
  split.
  - apply (@image_endpoint_statuses dict_store sample_oracle sample_clock 512
             {| ImageEmbeddingRequest.image := "short";
                ImageEmbeddingRequest.cache_key := None |}).
    cbn. lia.
  - apply (@image_endpoint_statuses dict_store sample_oracle sample_clock 512
             {| ImageEmbeddingRequest.image := "0123456789";
                ImageEmbeddingRequest.cache_key := None |}).
    cbn. lia.
Defined.

Lemma batch_endpoint_counts_witness :
  exists resp s',
    @post_embed_batch dict_store sample_oracle sample_clock 512
      [ItemStr "x"; ItemStr "y"] "image" (Some (cold_world 1000)) = (OK resp, s')
    /\ BatchResponse.count resp = 2%nat.
Proof.
  destruct (@post_embed_batch dict_store sample_oracle sample_clock 512
              [ItemStr "x"; ItemStr "y"] "image" (Some (cold_world 1000)))
    as [[resp|x] s'] eqn:Hrun.
  - exists resp, s'. split; [reflexivity|].
    destruct (@batch_endpoint_counts dict_store sample_oracle sample_clock 512
                [ItemStr "x"; ItemStr "y"] "image") as (_ & _ & Hcount & _).
    apply (Hcount ltac:(cbn; lia) (cold_world 1000) resp s' Hrun).
  - vm_compute in Hrun. discriminate Hrun.
Defined.

(** ** The consistency check and the multimodal endpoint *)

Section ConsistencyFacts.
Context `{DurableStore} `{EmbeddingOracle} `{Clock}.
Import Float.

Lemma threshold_zero_passes (t : float) :
  threshold_in_range t = true -> geb pzero t = is_zero t.
Proof.
  unfold threshold_in_range, geb, leb, pzero.
  destruct t as [s|s| |s m e]; try destruct s; cbn;
    intros Hrange; try reflexivity; discriminate Hrange.
Qed.

(** [POST /character/consistency]: a threshold outside 0..1, a NaN
    among them, is rejected with no effect on the service; and a request
    within the range that names no reference image and no text has the
    score 0 and passes exactly when its threshold is zero. *)
Theorem consistency_threshold_gate (body : ConsistencyRequest) :
  (threshold_in_range (threshold body) = false ->
   forall clip_service,
     post_character_consistency body clip_service
     = (Raise (RequestValidationError "threshold"), clip_service))
  /\ (is_nan (threshold body) = true -> threshold_in_range (threshold body) = false)
  /\ (threshold_in_range (threshold body) = true ->
      reference_images body = [] -> truthy (text_description body) = false ->
      forall w g w1,
        encode_image (generated_image body) None w = (OK g, w1) ->
        exists verdict,
          post_character_consistency body (Some w) = (OK verdict, Some w1)
          /\ consistency_score verdict = pzero
          /\ passed verdict = is_zero (threshold body)).
Proof.
  split; [|split].
  - intros Hout clip_service. unfold post_character_consistency. rewrite Hout. reflexivity.
  - destruct (threshold body); try discriminate. reflexivity.
  - intros Hrange Hrefs Htext w g w1 Hgen.
    unfold post_character_consistency. rewrite Hrange.
    unfold with_service, check_character_consistency, try_except, bind, ret, lift, raise.
    rewrite Hgen, Hrefs, Htext. cbn [reference_loop]. unfold ret.
    eexists. split; [reflexivity|]. cbn [consistency_score passed].
    split; [reflexivity|]. apply threshold_zero_passes. exact Hrange.
Qed.

(** On a service without cache, with a model that gives the text and
    the image vectors of one length, [POST /embed/multimodal] answers the
    two vectors and their dot product, and that dot product is the
    [text_similarity] the consistency check reports for the same image
    and text; the two model runs are counted. *)
Theorem multimodal_matches_consistency (request : MultimodalRequest.t)
    (check : ConsistencyRequest) (w : World) (te ie : Np.ndarray) :
  cache_enabled w = false ->
  clip_encode_text [MultimodalRequest.text request] = OK [te] ->
  clip_encode_image (MultimodalRequest.image request) = OK ie ->
  length te = length ie ->
  generated_image check = MultimodalRequest.image request ->
  reference_images check = [] ->
  text_description check = Some (MultimodalRequest.text request) ->
  truthy (text_description check) = true ->
  exists response verdict w1 w2,
    embed_multimodal request (Some w) = (OK response, Some w1)
    /\ MultimodalResponse.text_embedding response = tolist te
    /\ MultimodalResponse.image_embedding response = tolist ie
    /\ MultimodalResponse.cross_modal_similarity response
       = convert binary64 (Np.sum_products binary32 te ie)
    /\ request_count w1 = S (S (request_count w))
    /\ check_character_consistency check w = (OK verdict, w2)
    /\ text_similarity verdict
       = Some (MultimodalResponse.cross_modal_similarity response).
Proof.
  intros Hen Htext Himage Hlen Hgen Hrefs Hdesc Htruthy.
  eexists _, _, _, _. split.
  { unfold embed_multimodal, with_service, try_except, bind, ret, lift, raise.
    rewrite (encode_text_no_cache _ None w [te] Hen Htext).
    rewrite (encode_image_no_cache _ None _ ie) by (exact Hen || exact Himage).
    cbn [row0]. rewrite (float_dot_aligned te ie Hlen). reflexivity. }
  cbn [MultimodalResponse.text_embedding MultimodalResponse.image_embedding
       MultimodalResponse.cross_modal_similarity].
  split; [reflexivity|]. split; [reflexivity|]. split; [reflexivity|].
  split; [reflexivity|]. split.
  { unfold check_character_consistency, try_except, bind, ret, lift, raise.
    rewrite Hgen, Hrefs.
    rewrite (encode_image_no_cache _ None w ie Hen Himage).
    cbn [reference_loop]. unfold ret. rewrite Htruthy, Hdesc. cbn [default from_option id].
    rewrite (encode_text_no_cache _ None _ [te]) by (exact Hen || exact Htext).
    cbn [row0]. rewrite (float_dot_aligned ie te) by (symmetry; exact Hlen).
    reflexivity. }
  cbn [text_similarity]. rewrite (sum_products_comm binary32 ie te). reflexivity.
Qed.

End ConsistencyFacts.

Lemma consistency_threshold_gate_witness :
  exists verdict s',
    @post_character_consistency dict_store sample_oracle sample_clock
      {| generated_image := "x"; reference_images := [];
         text_description := None; threshold := Float.pzero |}
      (Some (cold_world 1000)) = (OK verdict, s')
    /\ passed verdict = true.
Proof.
  destruct (@consistency_threshold_gate dict_store sample_oracle sample_clock
              {| generated_image := "x"; reference_images := [];
                 text_description := None; threshold := Float.pzero |})
    as (_ & _ & Hzero).
  destruct (Hzero eq_refl eq_refl eq_refl (cold_world 1000) [f32 1; f32 0]
              (snd (@encode_image dict_store sample_oracle sample_clock "x" None
                      (cold_world 1000))))
    as (verdict & Hrun & _ & Hpassed); [vm_compute; reflexivity|].
  eexists verdict, _. split; [exact Hrun | exact Hpassed].
Defined.

Lemma multimodal_matches_consistency_witness :
  exists response verdict w1 w2,
    @embed_multimodal dict_store sample_oracle sample_clock
      {| MultimodalRequest.text := "d"; MultimodalRequest.image := "x";
         MultimodalRequest.cache_key := None |}
      (Some (@fresh_world dict_store false None 60 10)) = (OK response, Some w1)
    /\ @check_character_consistency dict_store sample_oracle sample_clock
         {| generated_image := "x"; reference_images := [];
            text_description := Some "d"; threshold := Float.lit_0_7 |}
         (@fresh_world dict_store false None 60 10) = (OK verdict, w2)
    /\ text_similarity verdict
       = Some (MultimodalResponse.cross_modal_similarity response).
Proof.
  destruct (@multimodal_matches_consistency dict_store sample_oracle sample_clock
              {| MultimodalRequest.text := "d"; MultimodalRequest.image := "x";
                 MultimodalRequest.cache_key := None |}
              {| generated_image := "x"; reference_images := [];
                 text_description := Some "d"; threshold := Float.lit_0_7 |}
              (@fresh_world dict_store false None 60 10)
              (Np.divide Float.binary32 [f32 1; f32 1]
                 (Np.linalg_norm Float.binary32 [f32 1; f32 1]))
              [f32 1; f32 0])
    as (response & verdict & w1 & w2 & Hmulti & _ & _ & _ & _ & Hcheck & Hsame);
    try reflexivity.
  exists response, verdict, w1, w2. split; [exact Hmulti|]. split; [exact Hcheck | exact Hsame].
Defined.

(** ** The middleware *)

Section MiddlewareFacts.
Context {S A : Type}.

(** [track_requests] hands on what the application answers and leaves
    the gauge of active connections where it found it, on both ways out;
    a request that raises is neither counted nor timed, one that returns
    adds its duration to the latencies and one to the counter of its
    method and path, and to no other counter. *)
Theorem track_requests_balanced (method path : string) (start_time end_time : Q)
    (call_next : S -> result A * S) (m : Metrics) (st : S) :
  let out := track_requests method path start_time end_time call_next m st in
  fst out = call_next st
  /\ ACTIVE_CONNECTIONS (snd out) = ACTIVE_CONNECTIONS m
  /\ match fst (call_next st) with
     | OK _ =>
         REQUEST_LATENCY (snd out) = REQUEST_LATENCY m ++ [(end_time - start_time)%Q]
         /\ REQUEST_COUNT (snd out) !! (method, path)
            = Some (Datatypes.S (default 0%nat (REQUEST_COUNT m !! (method, path))))
         /\ forall labels, labels <> (method, path) ->
              REQUEST_COUNT (snd out) !! labels = REQUEST_COUNT m !! labels
     | Raise _ =>
         REQUEST_LATENCY (snd out) = REQUEST_LATENCY m
         /\ REQUEST_COUNT (snd out) = REQUEST_COUNT m
     end.
Proof.
  cbv zeta. unfold track_requests.
  destruct (call_next st) as [[response|e] st']; cbn [fst snd];
    (split; [reflexivity|]); (split; [cbn; lia|]).
  - cbn [connections_add observe_request REQUEST_LATENCY REQUEST_COUNT ACTIVE_CONNECTIONS].
    split; [reflexivity|]. split; [apply lookup_insert_eq|].
    intros labels Hne. apply lookup_insert_ne. congruence.
  - split; reflexivity.
Qed.

End MiddlewareFacts.

Lemma text_endpoint_shapes_witness :
  exists e,
    TextEmbeddingResponse.embeddings
      {| TextEmbeddingResponse.embeddings := TextEmbeddingResponse.One [f64 0; f64 1];
         TextEmbeddingResponse.dimension := 512 |}
    = TextEmbeddingResponse.One (tolist e).
Proof.
  destruct (@text_endpoint_shapes dict_store sample_oracle sample_clock 512 None
              (cold_world 1000)) as [_ Hsingle].
  apply (Hsingle "y" _
           (snd (@embed_text dict_store sample_oracle sample_clock 512
                   {| TextEmbeddingRequest.text := inl "y";
                      TextEmbeddingRequest.cache_key := None |}
                   (Some (cold_world 1000))))).
  vm_compute. reflexivity.
Defined.
